(** * aozora-furigana: the text normalizer and the archive extractor

    A shallow embedding of [src/aozora.py] and [src/app.py].

    A Python [str] is a sequence of Unicode code points; it is modelled
    as [list N].  The functions of [re] and the [str] methods that the
    source calls are modelled in [Module Py]; the two copies of
    [_strip_ruby_and_notes] are in [Module Aozora] and [Module App], and
    [_extract_text_path] is in [Module Extractor], over a model of the
    archive and of the directory in [Module Os]. *)

From Stdlib Require Import List NArith Arith Bool Lia.
From Stdlib Require String Ascii.
From Stdlib.Strings Require Byte.
Import ListNotations.
Import String.StringSyntax.

(** ** Code points *)

Definition char := N.
Definition str := list char.

Module Ch.
Definition TAB : char := 9%N.
Definition LF : char := 10%N.
Definition CR : char := 13%N.
Definition HYPHEN : char := 45%N.          (* '-'  U+002D *)
Definition IDSP : char := 12288%N.         (* U+3000 ideographic space *)
Definition RUBY_OPEN : char := 12298%N.    (* U+300A *)
Definition RUBY_CLOSE : char := 12299%N.   (* U+300B *)
Definition TEI : char := 24213%N.          (* U+5E95 *)
Definition HON : char := 26412%N.          (* U+672C *)
Definition FW_COLON : char := 65306%N.     (* U+FF1A *)
Definition FW_HASH : char := 65283%N.      (* U+FF03 *)
Definition NOTE_OPEN : char := 65339%N.    (* U+FF3B *)
Definition NOTE_CLOSE : char := 65341%N.   (* U+FF3D *)
End Ch.

(** ** Exceptions *)

Inductive exn : Type :=
| IndexError
| AozoraProcessingError (msg : String.string)
| OtherError (what : String.string).

Inductive result (A : Type) : Type :=
| Ok (a : A)
| Raise (e : exn).
Arguments Ok {A} a.
Arguments Raise {A} e.

Definition bind {A B} (r : result A) (k : A -> result B) : result B :=
  match r with
  | Ok a => k a
  | Raise e => Raise e
  end.

Notation "x <- r ;; k" := (bind r (fun x => k))
  (at level 61, r at next level, right associativity).

(** ** The Python primitives used by the source *)

Module Py.

(** [seq[i]] for a non-negative index: raises [IndexError] out of range. *)
Definition getitem {A} (l : list A) (i : nat) : result A :=
  match nth_error l i with
  | Some a => Ok a
  | None => Raise IndexError
  end.

(** [s.startswith(p)] *)
Fixpoint startswith (p s : str) : bool :=
  match p, s with
  | [], _ => true
  | _ :: _, [] => false
  | a :: p', b :: s' => (a =? b)%N && startswith p' s'
  end.

(** Length of the longest prefix of [s] made of the character [c]. *)
Fixpoint run_length (c : char) (s : str) : nat :=
  match s with
  | [] => 0
  | d :: s' => if (d =? c)%N then S (run_length c s') else 0
  end.

(** A compiled pattern, anchored: [m s] is the length of the match of
    the pattern at the start of [s], or [None] ([Pattern.match]). *)
Definition matcher := str -> option nat.

(** [c{n,}], greedy: the whole run, when it has at least [n] characters. *)
Definition at_least (n : nat) (c : char) : matcher :=
  fun s => let k := run_length c s in
           if n <=? k then Some k else None.

(** The tail of a lazy [.+?] followed by the literal [close]: the number
    of characters up to and including the first [close], when no line
    feed comes before it ([.] does not match a line feed). *)
Fixpoint lazy_close (close : char) (s : str) : option nat :=
  match s with
  | [] => None
  | c :: s' =>
      if (c =? close)%N then Some 1
      else if (c =? Ch.LF)%N then None
      else option_map S (lazy_close close s')
  end.

(** The rest of the pattern after the opening literal: [.+?close].
    The first character is taken by [.+] whatever it is, the line feed
    apart; the lazy search for [close] starts after it. *)
Definition dot_plus_lazy (close : char) (s : str) : option nat :=
  match s with
  | [] => None
  | c :: s' =>
      if (c =? Ch.LF)%N then None
      else option_map S (lazy_close close s')
  end.

(** [open.+?close] for a literal [open] and a one-character [close]. *)
Definition span (open : str) (close : char) : matcher :=
  fun s =>
    if startswith open s
    then option_map (Nat.add (length open))
           (dot_plus_lazy close (skipn (length open) s))
    else None.

(** [re.sub(pattern, repl, s)]: the matches are found from left to
    right and do not overlap.  [skip] counts the characters of the
    current match that are still to be passed over. *)
Fixpoint sub_from (m : matcher) (repl : str) (skip : nat) (s : str) : str :=
  match s with
  | [] => []
  | c :: s' =>
      match skip with
      | S k => sub_from m repl k s'
      | O =>
          match m s with
          | Some (S n) => repl ++ sub_from m repl n s'
          | _ => c :: sub_from m repl 0 s'
          end
      end
  end.

Definition re_sub (m : matcher) (repl : str) (s : str) : str :=
  sub_from m repl 0 s.

(** [re.split(pattern, s)]: [cur] holds the current piece, reversed. *)
Fixpoint split_from (m : matcher) (skip : nat) (cur : str) (s : str)
  : list str :=
  match s with
  | [] => [rev cur]
  | c :: s' =>
      match skip with
      | S k => split_from m k cur s'
      | O =>
          match m s with
          | Some (S n) => rev cur :: split_from m n [] s'
          | _ => split_from m 0 (c :: cur) s'
          end
      end
  end.

Definition re_split (m : matcher) (s : str) : list str :=
  split_from m 0 [] s.

(** [s.replace(old, new)] for a non-empty [old]. *)
Fixpoint replace_from (old new : str) (skip : nat) (s : str) : str :=
  match s with
  | [] => []
  | c :: s' =>
      match skip with
      | S k => replace_from old new k s'
      | O =>
          if startswith old s
          then new ++ replace_from old new (length old - 1) s'
          else c :: replace_from old new 0 s'
      end
  end.

Definition replace (old new : str) (s : str) : str :=
  replace_from old new 0 s.

(** [s.split(sep, 1)] for a non-empty [sep]: the text before the first
    occurrence of [sep] and the text after it, or [s] alone. *)
Fixpoint split_once_from (sep : str) (cur : str) (s : str) : list str :=
  match s with
  | [] => [rev cur]
  | c :: s' =>
      if startswith sep s
      then [rev cur; skipn (length sep) s]
      else split_once_from sep (c :: cur) s'
  end.

Definition split_once (sep : str) (s : str) : list str :=
  split_once_from sep [] s.

(** [c.isspace()]: the characters [str.strip()] removes. *)
Definition isspace (c : char) : bool :=
  ((9 <=? c) && (c <=? 13)
   || (28 <=? c) && (c <=? 32)
   || (c =? 133) || (c =? 160) || (c =? 5760)
   || (8192 <=? c) && (c <=? 8202)
   || (c =? 8232) || (c =? 8233) || (c =? 8239) || (c =? 8287)
   || (c =? 12288))%N.

Fixpoint lstrip (s : str) : str :=
  match s with
  | [] => []
  | c :: s' => if isspace c then lstrip s' else s
  end.

Definition rstrip (s : str) : str := rev (lstrip (rev s)).

Definition strip (s : str) : str := rstrip (lstrip s).

End Py.

(** ** The patterns and literals of the source *)

Definition HYPHENS5 : Py.matcher := Py.at_least 5 Ch.HYPHEN.        (* \-{5,} *)
Definition RUBY : Py.matcher := Py.span [Ch.RUBY_OPEN] Ch.RUBY_CLOSE.
Definition NOTE : Py.matcher :=
  Py.span [Ch.NOTE_OPEN; Ch.FW_HASH] Ch.NOTE_CLOSE.
Definition LF3 : Py.matcher := Py.at_least 3 Ch.LF.                 (* \n{3,} *)
Definition COLOPHON : str := [Ch.TEI; Ch.HON; Ch.FW_COLON].

(** ** src/aozora.py *)

Module Aozora.

Definition _strip_ruby_and_notes (text : str) : result str :=
  let sections := Py.re_split HYPHENS5 text in
  text <- (if 3 <=? length sections then Py.getitem sections 2 else Ok text) ;;
  text <- Py.getitem (Py.split_once COLOPHON text) 0 ;;
  let text := Py.re_sub RUBY [] text in
  let text := Py.re_sub NOTE [] text in
  let text := Py.replace [Ch.IDSP] [] text in
  let text := Py.replace [Ch.CR; Ch.LF] [Ch.LF] text in
  let text := Py.re_sub LF3 [Ch.LF; Ch.LF] text in
  Ok (Py.strip text).

End Aozora.

(** ** src/app.py *)

Module App.

Definition _strip_ruby_and_notes (text : str) : result str :=
  let sections := Py.re_split HYPHENS5 text in
  text <- (if 3 <=? length sections then Py.getitem sections 2 else Ok text) ;;
  text <- Py.getitem (Py.split_once COLOPHON text) 0 ;;
  let text := Py.re_sub RUBY [] text in
  let text := Py.re_sub NOTE [] text in
  let text := Py.replace [Ch.IDSP] [] text in
  let text := Py.replace [Ch.CR; Ch.LF] [Ch.LF] text in
  let text := Py.re_sub LF3 [Ch.LF; Ch.LF] text in
  Ok (Py.strip text).

End App.

(** ** The statements of [_strip_ruby_and_notes], one by one

    The value of [text] after each statement of the function, as a
    function of its value before it. *)

Module Stage.

(** Lines 53-55: the split on the hyphen rules and the choice of the
    third section. *)
Definition front_matter (text : str) : result str :=
  let sections := Py.re_split HYPHENS5 text in
  if 3 <=? length sections then Py.getitem sections 2 else Ok text.

(** Line 56. *)
Definition colophon (text : str) : result str :=
  Py.getitem (Py.split_once COLOPHON text) 0.

(** Line 57 and line 58. *)
Definition ruby (text : str) : str := Py.re_sub RUBY [] text.
Definition notes (text : str) : str := Py.re_sub NOTE [] text.

(** Line 59 and line 60. *)
Definition idsp (text : str) : str := Py.replace [Ch.IDSP] [] text.
Definition crlf (text : str) : str := Py.replace [Ch.CR; Ch.LF] [Ch.LF] text.

(** Line 61 and line 62. *)
Definition blank_lines (text : str) : str :=
  Py.re_sub LF3 [Ch.LF; Ch.LF] text.
Definition trim (text : str) : str := Py.strip text.

(** Lines 59-62. *)
Definition tidy (text : str) : str := trim (blank_lines (crlf (idsp text))).

(** Lines 57-62. *)
Definition markup (text : str) : str := tidy (notes (ruby text)).

(** The values that lines 53-55 and line 56 produce when they do not
    raise. *)
Definition body (text : str) : str :=
  let sections := Py.re_split HYPHENS5 text in
  if 3 <=? length sections then nth 2 sections [] else text.

Definition before_colophon (text : str) : str :=
  hd [] (Py.split_once COLOPHON text).

Definition normalized (text : str) : str :=
  markup (before_colophon (body text)).

(** The text that reaches line 60. *)
Definition before_crlf (text : str) : str :=
  idsp (notes (ruby (before_colophon (body text)))).

End Stage.

(** ** The eight steps as the specification words them (section 4.3)

    These definitions follow the text of the specification, not the
    source; they are compared with the source below. *)

Module Spec.

Definition str_eq_dec : forall a b : str, {a = b} + {a <> b} :=
  list_eq_dec N.eq_dec.

(** Step 1.  The text is cut at every maximal run of five or more
    hyphens: [k] hyphens of the current run have been read and [cur]
    is the current segment, reversed. *)
Fixpoint segments (k : nat) (cur : str) (s : str) : list str :=
  match s with
  | [] =>
      if 5 <=? k then [rev cur; []]
      else [rev (repeat Ch.HYPHEN k ++ cur)]
  | c :: s' =>
      if (c =? Ch.HYPHEN)%N then segments (S k) cur s'
      else if 5 <=? k then rev cur :: segments 0 [c] s'
      else segments 0 (c :: repeat Ch.HYPHEN k ++ cur) s'
  end.

Definition step1 (s : str) : str :=
  match segments 0 [] s with
  | _ :: _ :: third :: _ => third
  | _ => s
  end.

(** Step 2.  The index of the first occurrence of [p] in [s]. *)
Fixpoint find (p s : str) : option nat :=
  if str_eq_dec (firstn (length p) s) p then Some 0
  else match s with
       | [] => None
       | _ :: s' => option_map S (find p s')
       end.

Definition cut_at (p s : str) : str :=
  match find p s with
  | Some i => firstn i s
  | None => s
  end.

Definition step2 (s : str) : str := cut_at COLOPHON s.

(** Steps 3 and 4.  [span s] is the text that follows the span that
    starts at the head of [s], when there is one; the spans are removed
    from left to right. *)
Fixpoint remove_spans (span : str -> option str) (fuel : nat) (s : str)
  : str :=
  match fuel with
  | O => s
  | S fuel' =>
      match s with
      | [] => []
      | c :: s' =>
          match span s with
          | Some rest => remove_spans span fuel' rest
          | None => c :: remove_spans span fuel' s'
          end
      end
  end.

(** A span as the specification has it: the opening bracket, anything,
    the nearest closing bracket. *)
Fixpoint after_first (close : char) (s : str) : option str :=
  match s with
  | [] => None
  | c :: s' => if (c =? close)%N then Some s' else after_first close s'
  end.

Definition span_any (open : str) (close : char) (s : str) : option str :=
  if str_eq_dec (firstn (length open) s) open
  then after_first close (skipn (length open) s)
  else None.

Definition step3 (s : str) : str :=
  remove_spans (span_any [Ch.RUBY_OPEN] Ch.RUBY_CLOSE) (length s) s.

Definition step4 (s : str) : str :=
  remove_spans (span_any [Ch.NOTE_OPEN; Ch.FW_HASH] Ch.NOTE_CLOSE)
    (length s) s.

(** A span on one line with something between its brackets: the first
    character after the opening bracket belongs to the content whatever
    it is, and the closing bracket is the nearest one after it; none of
    them is a line feed. *)
Fixpoint after_first_on_line (close : char) (s : str) : option str :=
  match s with
  | [] => None
  | c :: s' =>
      if (c =? close)%N then Some s'
      else if (c =? Ch.LF)%N then None
      else after_first_on_line close s'
  end.

Definition span_on_line (open : str) (close : char) (s : str)
  : option str :=
  if str_eq_dec (firstn (length open) s) open
  then match skipn (length open) s with
       | [] => None
       | c :: t =>
           if (c =? Ch.LF)%N then None else after_first_on_line close t
       end
  else None.

Definition step3_on_line (s : str) : str :=
  remove_spans (span_on_line [Ch.RUBY_OPEN] Ch.RUBY_CLOSE) (length s) s.

Definition step4_on_line (s : str) : str :=
  remove_spans (span_on_line [Ch.NOTE_OPEN; Ch.FW_HASH] Ch.NOTE_CLOSE)
    (length s) s.

(** Step 5. *)
Definition step5 (s : str) : str :=
  filter (fun c => negb (c =? Ch.IDSP)%N) s.

(** Step 6. *)
Fixpoint step6 (s : str) : str :=
  match s with
  | [] => []
  | c :: s' =>
      match s' with
      | d :: _ =>
          if (c =? Ch.CR)%N && (d =? Ch.LF)%N then step6 s'
          else c :: step6 s'
      | [] => [c]
      end
  end.

(** Step 7.  [k] line feeds of the current run have been read; the
    third and the following ones are dropped. *)
Fixpoint at_most_two (k : nat) (s : str) : str :=
  match s with
  | [] => []
  | c :: s' =>
      if (c =? Ch.LF)%N
      then if k <? 2 then c :: at_most_two (S k) s' else at_most_two (S k) s'
      else c :: at_most_two 0 s'
  end.

Definition step7 (s : str) : str := at_most_two 0 s.

(** Step 8. *)
Definition trim_right (s : str) : str :=
  fold_right
    (fun c acc =>
       match acc with
       | [] => if Py.isspace c then [] else [c]
       | _ :: _ => c :: acc
       end) [] s.

Fixpoint trim_left (s : str) : str :=
  match s with
  | [] => []
  | c :: s' => if Py.isspace c then trim_left s' else s
  end.

Definition step8 (s : str) : str := trim_right (trim_left s).

(** The normalizer of the specification. *)
Definition normalize (s : str) : str :=
  step8 (step7 (step6 (step5 (step4 (step3 (step2 (step1 s))))))).

(** The same with the spans of steps 3 and 4 taken on one line. *)
Definition normalize_on_line (s : str) : str :=
  step8 (step7 (step6 (step5
    (step4_on_line (step3_on_line (step2 (step1 s))))))).

End Spec.

(** ** Scenarios *)

Module Scenario.
Import Ch.

(** Scenario 1 of section 8: a rule, "front", a rule, then the body
    "BODY", a ruby span, "text", a note span, and the colophon. *)
Definition s1 : str :=
  [HYPHEN;HYPHEN;HYPHEN;HYPHEN;HYPHEN;LF;102;114;111;110;116;LF;
   HYPHEN;HYPHEN;HYPHEN;HYPHEN;HYPHEN;LF;66;79;68;89;
   RUBY_OPEN;12424;12415;RUBY_CLOSE;116;101;120;116;
   NOTE_OPEN;FW_HASH;27880;NOTE_CLOSE;LF;TEI;HON;FW_COLON;120;121;122]%N.

(** Scenario 2 of section 8: U+3000, "Hello", CR LF, "World", four line
    feeds, "End". *)
Definition s2 : str :=
  [IDSP;72;101;108;108;111;CR;LF;87;111;114;108;100;LF;LF;LF;LF;69;110;100]%N.
End Scenario.

(** ** Concrete texts *)

Module Input.
Import Ch.
Definition a : char := 97%N.
Definition b : char := 98%N.
Definition c : char := 99%N.

(** One hyphen rule between two letters. *)
Definition one_rule : str := [a; HYPHEN; HYPHEN; HYPHEN; HYPHEN; HYPHEN; b].

(** A colophon marker in the front matter: the marker, a letter, a
    rule, a letter, a rule and the body "BODY". *)
Definition marker_in_front : str :=
  [TEI; HON; FW_COLON; a] ++ repeat HYPHEN 5 ++ [b] ++ repeat HYPHEN 5
  ++ [66; 79; 68; 89]%N.

(** A colophon after a rule-free text. *)
Definition with_colophon : str := [a; b; TEI; HON; FW_COLON; c; LF].




(** A text with a rule, CR LF pairs and blank lines, and no marker. *)
Definition plain_lines : str :=
  [LF; a; CR; LF; LF; LF; LF; HYPHEN; HYPHEN; HYPHEN; HYPHEN; HYPHEN; b;
   CR; c; LF].

(** A note span whose content runs over two lines. *)
Definition note_two_lines : str := [NOTE_OPEN; FW_HASH; a; LF; b; NOTE_CLOSE].

(** A ruby span and a note span on one line, each after a letter. *)
Definition ruby_on_line : str := [a; RUBY_OPEN; 12424; 12415; RUBY_CLOSE; b]%N.
Definition note_on_line : str :=
  [a; NOTE_OPEN; FW_HASH; 27880; NOTE_CLOSE; b]%N.

(** Front matter, a rule, a notice, a rule, the body, a third rule and
    an afterword. *)
Definition three_rules : str :=
  [a] ++ repeat HYPHEN 5 ++ [b; LF] ++ repeat HYPHEN 7 ++ [LF; c; LF]
  ++ repeat HYPHEN 5 ++ [HYPHEN; a; b].

(** White space of several kinds. *)
Definition blank : str := [IDSP; LF; CR; LF; 32; TAB; 160]%N.

(** An opening bracket at the end of a line, then a letter and a ruby
    span; an opening bracket without the sign, then a note span. *)
Definition ruby_after_bracket : str :=
  [RUBY_OPEN; LF; a; RUBY_OPEN; 12424; 12415; RUBY_CLOSE; b]%N.
Definition note_after_bracket : str :=
  [NOTE_OPEN; a; NOTE_OPEN; FW_HASH; 27880; NOTE_CLOSE; b; LF; c]%N.

(** A carriage return before a CR LF pair. *)
Definition cr_cr_lf : str := [a; CR; CR; LF; b].

(** A ruby span whose content runs over two lines. *)
Definition ruby_two_lines : str := [RUBY_OPEN; a; LF; b; RUBY_CLOSE].
End Input.

(** ** Occurrences *)

(** [p] occurs in [s] at index [j]. *)
Definition occurs_at (p s : str) (j : nat) : Prop :=
  firstn (length p) (skipn j s) = p.

(** The number of maximal runs of five or more hyphens in a text of
    which [k] hyphens of the current run have been read. *)
Fixpoint hyphen_rules (k : nat) (s : str) : nat :=
  match s with
  | [] => if 5 <=? k then 1 else 0
  | c :: s' =>
      if (c =? Ch.HYPHEN)%N then hyphen_rules (S k) s'
      else (if 5 <=? k then 1 else 0) + hyphen_rules 0 s'
  end.

(** ** Predicates on texts *)

(** [pattern.match(s) is not None]. *)
Definition matches (m : Py.matcher) (s : str) : bool :=
  match m s with
  | Some _ => true
  | None => false
  end.

(** [pattern.search(s) is not None], for a pattern that does not match
    the empty text. *)
Fixpoint search (m : Py.matcher) (s : str) : bool :=
  match s with
  | [] => false
  | _ :: s' => matches m s || search m s'
  end.

(** A literal as a pattern, and [p in s]. *)
Definition literal (p : str) : Py.matcher :=
  fun s => if Py.startswith p s then Some (length p) else None.

Definition contains (p s : str) : bool := search (literal p) s.

(** The text up to the first line feed. *)
Fixpoint first_line (s : str) : str :=
  match s with
  | [] => []
  | c :: s' => if (c =? Ch.LF)%N then [] else c :: first_line s'
  end.

(** No white space at either end. *)
Definition trimmed (s : str) : Prop :=
  (forall c, hd_error s = Some c -> Py.isspace c = false)
  /\ (forall c, hd_error (rev s) = Some c -> Py.isspace c = false).

(** A pattern that looks at one line only: it does not match the empty
    text, and a match at the head of [t] is a match at the head of every
    text that starts with the first line of [t]. *)
Definition line_local (m : Py.matcher) : Prop :=
  m [] = None
  /\ forall t w, matches m t = true -> matches m (first_line t ++ w) = true.

(** [s] starts with the first line of [t]. *)
Definition extends (t s : str) : Prop := exists w, s = first_line t ++ w.

(** A match at the head of [t] is a match at the head of every text that
    starts with [t]. *)
Definition prefix_stable (m : Py.matcher) : Prop :=
  forall t w, matches m t = true -> matches m (t ++ w) = true.

(** Every match of [m] starts with the character [a]. *)
Definition starts_with_char (m : Py.matcher) (a : char) : Prop :=
  forall t, matches m t = true -> exists u, t = a :: u.


(** A text without any of the marker patterns that lines 53-58 remove:
    fewer than two rules of five hyphens (no front matter), no colophon
    marker, no ruby span and no note span. *)
Definition marker_free (x : str) : Prop :=
  hyphen_rules 0 x < 2
  /\ contains COLOPHON x = false
  /\ search RUBY x = false
  /\ search NOTE x = false.

(** ** The two kinds of bracketed spans *)

Inductive bracket : Type := Ruby | Note.

Definition opening (k : bracket) : str :=
  match k with
  | Ruby => [Ch.RUBY_OPEN]
  | Note => [Ch.NOTE_OPEN; Ch.FW_HASH]
  end.

Definition opening_char (k : bracket) : char :=
  match k with
  | Ruby => Ch.RUBY_OPEN
  | Note => Ch.NOTE_OPEN
  end.

Definition closing (k : bracket) : char :=
  match k with
  | Ruby => Ch.RUBY_CLOSE
  | Note => Ch.NOTE_CLOSE
  end.

(** Line 57 for the ruby spans, line 58 for the note spans. *)
Definition remove (k : bracket) : str -> str :=
  match k with
  | Ruby => Stage.ruby
  | Note => Stage.notes
  end.

(** A span of kind [k] stands at the head of [s]: the opening bracket,
    at least one character, the nearest closing bracket after that
    character, and no line feed between the brackets. *)
Definition span_at (k : bracket) (s : str) : Prop :=
  exists c body post,
    s = opening k ++ c :: body ++ closing k :: post
    /\ c <> Ch.LF /\ ~ In Ch.LF body /\ ~ In (closing k) body.

(** A span of kind [k] starts at index [i] of [s]. *)
Definition span_starts_at (k : bracket) (s : str) (i : nat) : Prop :=
  span_at k (skipn i s).

(** The pattern of line 57 and the pattern of line 58. *)
Definition pattern (k : bracket) : Py.matcher :=
  match k with
  | Ruby => RUBY
  | Note => NOTE
  end.

(** [subline t s]: [t] is [s] without some of its characters, none of
    them a line feed. *)
Inductive subline : str -> str -> Prop :=
| subline_nil : subline [] []
| subline_keep (c : char) (t s : str) :
    subline t s -> subline (c :: t) (c :: s)
| subline_drop (c : char) (t s : str) :
    c <> Ch.LF -> subline t s -> subline t (c :: s).

(** The matches of [m] have no line feed. *)
Definition match_on_line (m : Py.matcher) : Prop :=
  forall s n, m s = Some n -> ~ In Ch.LF (firstn n s).

(** ** The archive extractor (lines 39-49 of src/aozora.py)

    [zipfile], [glob] and the file system are outside the program; what
    they answer is a parameter of the model.  The call of [glob] is
    modelled for a directory path that [glob] takes as it is written
    ([Os.literal_dir]), as the paths of [tempfile] are. *)

Module Os.

Local Open Scope string_scope.

(** The names in a directory, in the order in which the system lists
    them. *)
Definition listing := list String.string.

(** What [ZipFile(zip_path).extractall(tmp_dir)] does: it raises
    [zipfile.BadZipFile], or it raises something else, or it returns and
    [tmp_dir] then holds [names]. *)
Inductive extraction : Type :=
| BadZipFile
| Failed (e : exn)
| Extracted (names : listing).

(** The world answers for every archive path and directory. *)
Definition world := String.string -> String.string -> extraction.

(** [name.endswith(suffix)] *)
Definition endswith (suffix name : String.string) : bool :=
  (String.length suffix <=? String.length name)
  && String.eqb
       (String.substring (String.length name - String.length suffix)
          (String.length suffix) name)
       suffix.

(** [glob._ishidden]: the name begins with a dot. *)
Definition ishidden (name : String.string) : bool :=
  match name with
  | String.String c _ => Ascii.eqb c (Ascii.ascii_of_nat 46)
  | String.EmptyString => false
  end.

(** [os.path.join(dir, name)] for a relative [name] (POSIX). *)
Definition join (dir name : String.string) : String.string :=
  if String.eqb dir "" || endswith "/" dir
  then String.append dir name
  else String.append dir (String.append "/" name).

(** [glob.has_magic(path)]: the path has one of the characters [*], [?]
    and the opening square bracket, which [glob] reads as wildcards. *)
Fixpoint has_magic (path : String.string) : bool :=
  match path with
  | String.EmptyString => false
  | String.String c rest =>
      Ascii.eqb c (Ascii.ascii_of_nat 42)
      || Ascii.eqb c (Ascii.ascii_of_nat 63)
      || Ascii.eqb c (Ascii.ascii_of_nat 91)
      || has_magic rest
  end.

(** A directory path that [glob] takes as it is written: no wildcard
    character in it, and no doubled slash at its end (which [glob] would
    drop from the paths it returns). *)
Definition literal_dir (dir : String.string) : bool :=
  negb (has_magic dir) && negb (endswith "//" dir).

(** [glob.glob(os.path.join(dir, "*.txt"))] for a [dir] with
    [literal_dir dir = true] whose names are [names]: the names that end
    in [.txt], those that begin with a dot left out (the pattern does
    not begin with one), each joined to [dir].  For another [dir] the
    call looks into the directories that match [dir] as a pattern; the
    properties below that depend on the result of the call are stated
    for a literal [dir]. *)
Definition glob_txt (dir : String.string) (names : listing)
  : list String.string :=
  map (join dir)
    (filter (fun name => negb (ishidden name) && endswith ".txt" name) names).

End Os.

Module Extractor.

Local Open Scope string_scope.

Definition EXTRACT_FAILED : String.string := "ZIPファイルを展開できません。".
Definition NO_TEXT_FOUND : String.string :=
  "ZIPファイルからテキストが見つかりません。".

Definition _extract_text_path (w : Os.world) (zip_path tmp_dir : String.string)
  : result String.string :=
  match w zip_path tmp_dir with
  | Os.BadZipFile => Raise (AozoraProcessingError EXTRACT_FAILED)
  | Os.Failed e => Raise e
  | Os.Extracted names =>
      let text_files := Os.glob_txt tmp_dir names in
      match text_files with
      | [] => Raise (AozoraProcessingError NO_TEXT_FOUND)
      | _ :: _ => Py.getitem text_files 0
      end
  end.

End Extractor.

(** Worlds. *)
Module World.
Local Open Scope string_scope.
Definition html_page : Os.world := fun _ _ => Os.BadZipFile.
Definition book : Os.world :=
  fun _ _ => Os.Extracted ["a.zip"; "fig1.png"; ".index.txt"; "book.txt";
                           "other.txt"].
End World.

(** ** The rest of the pipeline (lines 17-36 of src/aozora.py)

    File names and paths are byte strings, as in [Os]; a URL is a
    [str].  What [urlparse], [urlretrieve], [TemporaryDirectory], the
    file reads and the codec answer is a parameter of the model. *)

Module Posix.

Local Open Scope string_scope.

Definition SLASH : Ascii.ascii := Ascii.ascii_of_nat 47.

(** [path.split("/")] *)
Fixpoint split_slash (path : String.string) : list String.string :=
  match path with
  | String.EmptyString => [String.EmptyString]
  | String.String c rest =>
      if Ascii.eqb c SLASH then String.EmptyString :: split_slash rest
      else match split_slash rest with
           | x :: l => String.String c x :: l
           | [] => [String.String c String.EmptyString]
           end
  end.

(** The components that [PurePosixPath] keeps: the empty ones and the
    ones that are just a dot are left out. *)
Definition parts (path : String.string) : list String.string :=
  filter (fun x => negb (String.eqb x "") && negb (String.eqb x "."))
    (split_slash path).

(** [PurePosixPath(path).name]: the last component, or the empty string
    when there is none. *)
Definition name (path : String.string) : String.string :=
  last (parts path) "".

End Posix.

Module Pipeline.

Local Open Scope string_scope.

Definition bytes := list Byte.byte.

Record world : Type := {
  (** [tempfile.TemporaryDirectory()]: the directory, or what it raises. *)
  mkdtemp : result String.string;
  (** The exit of the [with] block: what the removal raises, if anything. *)
  cleanup : String.string -> option exn;
  (** [urlparse(zip_url).path], or what [urlparse] raises. *)
  url_path : str -> result String.string;
  (** [urlretrieve(zip_url, destination)]: what it raises, if anything. *)
  urlretrieve : str -> String.string -> option exn;
  (** [ZipFile(zip_path).extractall(tmp_dir)] *)
  unzip : Os.world;
  (** [Path(extracted).read_bytes()] *)
  read_bytes : String.string -> result bytes;
  (** [raw.decode("shift_jis")] *)
  decode_shift_jis : bytes -> result str
}.

Definition DOWNLOAD_FAILED : String.string :=
  "ZIPファイルのダウンロードに失敗しました。".

(** Lines 29-36.  [x or "aozora.zip"] takes the default when [x] is the
    empty string. *)
Definition _download_zip (w : world) (zip_url : str) (tmp_dir : String.string)
  : result String.string :=
  path <- url_path w zip_url ;;
  let parsed_path :=
    Posix.name (if String.eqb path "" then "aozora.zip" else path) in
  let destination := Os.join tmp_dir parsed_path in
  match urlretrieve w zip_url destination with
  | Some _ => Raise (AozoraProcessingError DOWNLOAD_FAILED)
  | None => Ok destination
  end.

(** Lines 22-25, the body of the [with] block. *)
Definition read_text (w : world) (zip_url : str) (tmp_dir : String.string)
  : result str :=
  zip_path <- _download_zip w zip_url tmp_dir ;;
  extracted <- Extractor._extract_text_path (unzip w) zip_path tmp_dir ;;
  raw <- read_bytes w extracted ;;
  decode_shift_jis w raw.

(** Lines 17-26.  The directory is removed when the [with] block is
    left, whether its body returned or raised; what the removal raises
    replaces what the body raised. *)
Definition fetch_clean_text (w : world) (zip_url : str) : result str :=
  tmp_dir <- mkdtemp w ;;
  let body := read_text w zip_url tmp_dir in
  match cleanup w tmp_dir with
  | Some e => Raise e
  | None =>
      raw_text <- body ;;
      Aozora._strip_ruby_and_notes raw_text
  end.

(** Lines 23-32 of src/app.py: the same statements. *)
Definition fetch_aozora_text (w : world) (zip_url : str) : result str :=
  tmp_dir <- mkdtemp w ;;
  let body :=
    zip_path <- _download_zip w zip_url tmp_dir ;;
    extracted <- Extractor._extract_text_path (unzip w) zip_path tmp_dir ;;
    raw <- read_bytes w extracted ;;
    decode_shift_jis w raw in
  match cleanup w tmp_dir with
  | Some e => Raise e
  | None =>
      raw_text <- body ;;
      App._strip_ruby_and_notes raw_text
  end.

End Pipeline.

(** ** The front ends (src/api/convert.py and lines 71-138 of src/app.py)

    A request is what the handlers read of it; a response is what they
    hand to Flask. *)

Module Utf8.

Local Open Scope string_scope.

Definition byte_of (n : N) : Byte.byte :=
  match Byte.of_N n with
  | Some x => x
  | None => Byte.x00
  end.

(** The bytes of one code point; a surrogate has none. *)
Definition encode_char (c : char) : option Pipeline.bytes :=
  (if c <? 128 then Some [byte_of c]
   else if c <? 2048 then
     Some [byte_of (192 + c / 64); byte_of (128 + c mod 64)]
   else if c <? 65536 then
     if (55296 <=? c) && (c <=? 57343) then None
     else Some [byte_of (224 + c / 4096); byte_of (128 + (c / 64) mod 64);
                byte_of (128 + c mod 64)]
   else if c <? 1114112 then
     Some [byte_of (240 + c / 262144); byte_of (128 + (c / 4096) mod 64);
           byte_of (128 + (c / 64) mod 64); byte_of (128 + c mod 64)]
   else None)%N.

(** [s.encode("utf-8")] *)
Fixpoint encode (s : str) : result Pipeline.bytes :=
  match s with
  | [] => Ok []
  | c :: s' =>
      match encode_char c with
      | None => Raise (OtherError "UnicodeEncodeError")
      | Some bs => rest <- encode s' ;; Ok (bs ++ rest)%list
      end
  end.

End Utf8.

Module Web.

Local Open Scope string_scope.

(** An ASCII literal as a [str]. *)
Definition lit (s : String.string) : str :=
  map Ascii.N_of_ascii (String.list_ascii_of_string s).

(** The values that [request.get_json] gives.  Of a number the handlers
    only test whether it is zero. *)
Local Unset Elimination Schemes.
Inductive json : Type :=
| JNull
| JBool (b : bool)
| JNumber (zero : bool)
| JString (s : str)
| JArray (items : list json)
| JObject (members : list (str * json)).
Local Set Elimination Schemes.

(** [bool(v)] *)
Definition truthy (v : json) : bool :=
  match v with
  | JNull => false
  | JBool b => b
  | JNumber zero => negb zero
  | JString s => negb (Nat.eqb (length s) 0)
  | JArray items => negb (Nat.eqb (length items) 0)
  | JObject members => negb (Nat.eqb (length members) 0)
  end.

(** [a or b] *)
Definition or_else (a b : json) : json := if truthy a then a else b.

Fixpoint str_eqb (a b : str) : bool :=
  match a, b with
  | [], [] => true
  | x :: a', y :: b' => (x =? y)%N && str_eqb a' b'
  | _, _ => false
  end.

(** [d.get(key)] on the pairs of a dict or of a form: the value of the
    first pair with that key. *)
Fixpoint lookup {A} (key : str) (pairs : list (str * A)) : option A :=
  match pairs with
  | [] => None
  | (k, v) :: rest => if str_eqb k key then Some v else lookup key rest
  end.

(** [payload.get(key)]: only a dict has [get]. *)
Definition dict_get (payload : json) (key : str) : result json :=
  match payload with
  | JObject members =>
      Ok (match lookup key members with Some v => v | None => JNull end)
  | _ => Raise (OtherError "AttributeError")
  end.

(** [v.strip()]: only a string has [strip]. *)
Definition strip_value (v : json) : result str :=
  match v with
  | JString s => Ok (Py.strip s)
  | _ => Raise (OtherError "AttributeError")
  end.

Inductive http_method : Type := GET | POST.

Record request : Type := {
  method : http_method;
  (** [request.get_json(silent=True)] *)
  get_json : option json;
  (** [request.form] *)
  form : list (str * str)
}.

(** [request.form.get(key)] as a value: a string or [None]. *)
Definition form_get (req : request) (key : str) : json :=
  match lookup key (form req) with
  | Some s => JString s
  | None => JNull
  end.

Inductive reply : Type :=
| Text (text : str)
| Error (message : String.string).

Inductive response : Type :=
| Json (body : reply) (status : nat)
| Page (url : str) (text : option str) (error : option String.string)
       (status : nat)
| File (data : Pipeline.bytes) (mimetype download_name : String.string).

Definition MISSING_URL : String.string := "ZIPファイルのURLを入力してください。".
Definition UNEXPECTED : String.string :=
  "予期しないエラーが発生しました。URLをご確認ください。".
Definition EMPTY_DOWNLOAD : String.string :=
  "URLが空です。ダウンロードできません。".

(** src/api/convert.py, lines 10-24. *)
Definition convert (w : Pipeline.world) (req : request) : result response :=
  let payload :=
    or_else (match get_json req with Some v => v | None => JNull end)
      (JObject []) in
  from_json <- dict_get payload (lit "url") ;;
  zip_url <- strip_value
               (or_else (or_else from_json (form_get req (lit "url")))
                  (JString [])) ;;
  match zip_url with
  | [] => Ok (Json (Error MISSING_URL) 400)
  | _ :: _ =>
      match Pipeline.fetch_clean_text w zip_url with
      | Ok text => Ok (Json (Text text) 200)
      | Raise (AozoraProcessingError message) => Ok (Json (Error message) 400)
      | Raise _ => Ok (Json (Error UNEXPECTED) 500)
      end
  end.

(** src/app.py, lines 71-99. *)
Definition index (w : Pipeline.world) (req : request) : result response :=
  match method req with
  | GET => Ok (Page [] None None 200)
  | POST =>
      let action :=
        match lookup (lit "action") (form req) with
        | Some a => a
        | None => lit "convert"
        end in
      submitted_url <- strip_value
                         (or_else (form_get req (lit "url")) (JString [])) ;;
      if str_eqb action (lit "clear") then Ok (Page [] None None 200)
      else
        match submitted_url with
        | [] => Ok (Page submitted_url None (Some MISSING_URL) 200)
        | _ :: _ =>
            match Pipeline.fetch_aozora_text w submitted_url with
            | Ok text => Ok (Page submitted_url (Some text) None 200)
            | Raise (AozoraProcessingError message) =>
                Ok (Page submitted_url None (Some message) 200)
            | Raise _ => Ok (Page submitted_url None (Some UNEXPECTED) 200)
            end
        end
  end.

(** src/app.py, lines 102-138. *)
Definition download (w : Pipeline.world) (req : request) : result response :=
  submitted_url <- strip_value
                     (or_else (form_get req (lit "url")) (JString [])) ;;
  match submitted_url with
  | [] => Ok (Page [] None (Some EMPTY_DOWNLOAD) 400)
  | _ :: _ =>
      match Pipeline.fetch_aozora_text w submitted_url with
      | Raise (AozoraProcessingError message) =>
          Ok (Page submitted_url None (Some message) 400)
      | Raise e => Raise e
      | Ok cleaned_text =>
          data <- Utf8.encode cleaned_text ;;
          Ok (File data "text/plain; charset=utf-8" "aozora_cleaned.txt")
      end
  end.

End Web.

(** ** Subsequences *)

(** [subseq t s]: [t] is [s] without some of its characters. *)
Inductive subseq : str -> str -> Prop :=
| subseq_nil : subseq [] []
| subseq_keep (c : char) (t s : str) : subseq t s -> subseq (c :: t) (c :: s)
| subseq_drop (c : char) (t s : str) : subseq t s -> subseq t (c :: s).

(** The characters that are not white space, in their order. *)
Definition ink (s : str) : str := filter (fun c => negb (Py.isspace c)) s.

(** ** Predicates on paths and on worlds *)

(** The name has a slash. *)
Fixpoint has_slash (s : String.string) : bool :=
  match s with
  | String.EmptyString => false
  | String.String c rest => Ascii.eqb c Posix.SLASH || has_slash rest
  end.

(** [e] is raised by one of the calls that the pipeline makes into the
    world for [zip_url]. *)
Definition raised_by_world (w : Pipeline.world) (zip_url : str) (e : exn)
  : Prop :=
  Pipeline.mkdtemp w = Raise e
  \/ (exists d, Pipeline.cleanup w d = Some e)
  \/ Pipeline.url_path w zip_url = Raise e
  \/ (exists z d, Pipeline.unzip w z d = Os.Failed e)
  \/ (exists p, Pipeline.read_bytes w p = Raise e)
  \/ (exists b, Pipeline.decode_shift_jis w b = Raise e).

(** Worlds for the pipeline. *)
Module Net.
Local Open Scope string_scope.

(** A world in which the URL gives the archive of [World.book], whose
    text file holds [raw]. *)
Definition serving (raw : str) : Pipeline.world :=
  {| Pipeline.mkdtemp := Ok "/tmp/x";
     Pipeline.cleanup := fun _ => None;
     Pipeline.url_path := fun _ => Ok "/files/001/book.zip";
     Pipeline.urlretrieve := fun _ _ => None;
     Pipeline.unzip := World.book;
     Pipeline.read_bytes := fun _ => Ok [];
     Pipeline.decode_shift_jis := fun _ => Ok raw |}.

(** The same with an HTML page in place of the archive. *)
Definition serving_html : Pipeline.world :=
  {| Pipeline.mkdtemp := Ok "/tmp/x";
     Pipeline.cleanup := fun _ => None;
     Pipeline.url_path := fun _ => Ok "/files/001/book.zip";
     Pipeline.urlretrieve := fun _ _ => None;
     Pipeline.unzip := World.html_page;
     Pipeline.read_bytes := fun _ => Ok [];
     Pipeline.decode_shift_jis := fun _ => Ok [] |}.

(** The same with a text file that is not Shift_JIS. *)
Definition serving_garbage : Pipeline.world :=
  {| Pipeline.mkdtemp := Ok "/tmp/x";
     Pipeline.cleanup := fun _ => None;
     Pipeline.url_path := fun _ => Ok "/files/001/book.zip";
     Pipeline.urlretrieve := fun _ _ => None;
     Pipeline.unzip := World.book;
     Pipeline.read_bytes := fun _ => Ok [];
     Pipeline.decode_shift_jis :=
       fun _ => Raise (OtherError "UnicodeDecodeError") |}.

(** A world without network. *)
Definition offline : Pipeline.world :=
  {| Pipeline.mkdtemp := Ok "/tmp/x";
     Pipeline.cleanup := fun _ => None;
     Pipeline.url_path := fun _ => Ok "/files/001/book.zip";
     Pipeline.urlretrieve := fun _ _ => Some (OtherError "URLError");
     Pipeline.unzip := World.book;
     Pipeline.read_bytes := fun _ => Ok [];
     Pipeline.decode_shift_jis := fun _ => Ok [] |}.

Definition url : str := Web.lit "https://example.org/files/001/book.zip".

End Net.

(** Requests. *)
Module Req.
Local Open Scope string_scope.

(** A form with a URL, sent by POST. *)
Definition form_with (u : str) : Web.request :=
  {| Web.method := Web.POST;
     Web.get_json := None;
     Web.form := [(Web.lit "url", u)] |}.

(** A JSON body with a URL, sent by POST. *)
Definition json_with (u : str) : Web.request :=
  {| Web.method := Web.POST;
     Web.get_json := Some (Web.JObject [(Web.lit "url", Web.JString u)]);
     Web.form := [] |}.

(** The "clear" button of the page, with a URL in the field. *)
Definition clear_with (u : str) : Web.request :=
  {| Web.method := Web.POST;
     Web.get_json := None;
     Web.form := [(Web.lit "url", u); (Web.lit "action", Web.lit "clear")] |}.

(** A JSON body whose URL is a number. *)
Definition json_with_number : Web.request :=
  {| Web.method := Web.POST;
     Web.get_json := Some (Web.JObject [(Web.lit "url", Web.JNumber false)]);
     Web.form := [] |}.

(** A URL made of white space. *)
Definition spaces : str := [32; 9; 12288]%N.

End Req.

(** A code point that is not a surrogate (a Unicode scalar value). *)
Definition scalar (c : char) : bool :=
  ((c <? 55296) || ((57343 <? c) && (c <? 1114112)))%N.

(** * Properties *)

(** ** The primitives on small texts *)

Example re_split_at_the_end :
  Py.re_split HYPHENS5
    [Input.a; Ch.HYPHEN; Ch.HYPHEN; Ch.HYPHEN; Ch.HYPHEN; Ch.HYPHEN]
  = [[Input.a]; []].
Proof. reflexivity. Qed.

Example re_split_short_run :
  Py.re_split HYPHENS5
    [Input.a; Ch.HYPHEN; Ch.HYPHEN; Ch.HYPHEN; Ch.HYPHEN; Input.b]
  = [[Input.a; Ch.HYPHEN; Ch.HYPHEN; Ch.HYPHEN; Ch.HYPHEN; Input.b]].
Proof. reflexivity. Qed.

Example split_once_twice :
  Py.split_once COLOPHON (Input.a :: COLOPHON ++ Input.b :: COLOPHON)
  = [[Input.a]; Input.b :: COLOPHON].
Proof. reflexivity. Qed.

Example re_sub_empty_span :
  Py.re_sub RUBY [] [Ch.RUBY_OPEN; Ch.RUBY_CLOSE]
  = [Ch.RUBY_OPEN; Ch.RUBY_CLOSE].
Proof. reflexivity. Qed.

Example re_sub_close_as_content :
  Py.re_sub RUBY [] [Ch.RUBY_OPEN; Ch.RUBY_CLOSE; Ch.RUBY_CLOSE; Input.a]
  = [Input.a].
Proof. reflexivity. Qed.

Example re_sub_note_left_behind :
  Py.re_sub NOTE []
    [Ch.NOTE_OPEN; Ch.NOTE_OPEN; Ch.FW_HASH; Input.a; Ch.NOTE_CLOSE;
     Ch.FW_HASH; Input.b; Ch.NOTE_CLOSE]
  = [Ch.NOTE_OPEN; Ch.FW_HASH; Input.b; Ch.NOTE_CLOSE].
Proof. reflexivity. Qed.

Example replace_one_pass :
  Py.replace [Ch.CR; Ch.LF] [Ch.LF] [Ch.CR; Ch.CR; Ch.LF] = [Ch.CR; Ch.LF].
Proof. reflexivity. Qed.

Example strip_both_ends :
  Py.strip [Ch.IDSP; Ch.TAB; Input.a; 32; Input.b; Ch.LF; 133]%N
  = [Input.a; 32; Input.b]%N.
Proof. reflexivity. Qed.

(** ** The function never raises *)

Lemma strip_by_stages (text : str) :
  Aozora._strip_ruby_and_notes text
  = (t <- Stage.front_matter text ;; t <- Stage.colophon t ;; Ok (Stage.markup t)).
Proof. reflexivity. Qed.

Lemma getitem_nth {A} (l : list A) (i : nat) (d : A) :
  i < length l -> Py.getitem l i = Ok (nth i l d).
Proof.
  intros Hi. unfold Py.getitem.
  rewrite (nth_error_nth' l d Hi). reflexivity.
Qed.

Lemma front_matter_ok (text : str) :
  Stage.front_matter text = Ok (Stage.body text).
Proof.
  unfold Stage.front_matter, Stage.body. cbv zeta.
  destruct (3 <=? length (Py.re_split HYPHENS5 text)) eqn:E; [|reflexivity].
  apply Nat.leb_le in E. apply getitem_nth. lia.
Qed.

Lemma split_once_from_cons (sep cur s : str) :
  exists t rest, Py.split_once_from sep cur s = t :: rest.
Proof.
  revert cur. induction s as [|c s IH]; intros cur; simpl.
  - eauto.
  - destruct (Py.startswith sep (c :: s)); eauto.
Qed.

Lemma colophon_ok (text : str) :
  Stage.colophon text = Ok (Stage.before_colophon text).
Proof.
  unfold Stage.colophon, Stage.before_colophon, Py.split_once.
  destruct (split_once_from_cons COLOPHON [] text) as (t & rest & E).
  rewrite E. reflexivity.
Qed.

Lemma strip_normalized (text : str) :
  Aozora._strip_ruby_and_notes text = Ok (Stage.normalized text).
Proof.
  rewrite strip_by_stages, front_matter_ok. simpl.
  rewrite colophon_ok. reflexivity.
Qed.

(** ** The scenarios of the specification *)

Example scenario1 :
  Aozora._strip_ruby_and_notes Scenario.s1
  = Ok [66;79;68;89;116;101;120;116]%N.
Proof. reflexivity. Qed.

Example scenario2 :
  Aozora._strip_ruby_and_notes Scenario.s2
  = Ok [72;101;108;108;111;Ch.LF;87;111;114;108;100;Ch.LF;Ch.LF;69;110;100]%N.
Proof. reflexivity. Qed.

Example scenario1_spec :
  Spec.normalize_on_line Scenario.s1 = [66;79;68;89;116;101;120;116]%N.
Proof. reflexivity. Qed.

Example scenario2_spec :
  Spec.normalize Scenario.s2
  = [72;101;108;108;111;Ch.LF;87;111;114;108;100;Ch.LF;Ch.LF;69;110;100]%N.
Proof. reflexivity. Qed.

(** ** Step 1: the split on the hyphen rules *)

Lemma repeat_snoc {A} (a : A) (n : nat) (l : list A) :
  repeat a n ++ a :: l = repeat a (S n) ++ l.
Proof.
  induction n as [|n IH]; simpl; [reflexivity|].
  f_equal. exact IH.
Qed.

Lemma at_least_short (n : nat) (c : char) (s : str) :
  Py.run_length c s < n -> Py.at_least n c s = None.
Proof.
  intros H. unfold Py.at_least. cbv zeta.
  destruct (n <=? Py.run_length c s) eqn:E; [|reflexivity].
  apply Nat.leb_le in E. lia.
Qed.

Lemma at_least_long (n : nat) (c : char) (s : str) :
  n <= Py.run_length c s -> Py.at_least n c s = Some (Py.run_length c s).
Proof.
  intros H. unfold Py.at_least. cbv zeta.
  apply Nat.leb_le in H. rewrite H. reflexivity.
Qed.

(** What [re.split] does with the run of hyphens at the head of the text. *)
Lemma split_from_run (s cur : str) :
  Py.split_from HYPHENS5 0 cur s
  = if 5 <=? Py.run_length Ch.HYPHEN s
    then rev cur :: Py.split_from HYPHENS5 (Py.run_length Ch.HYPHEN s) [] s
    else Py.split_from HYPHENS5 0
           (repeat Ch.HYPHEN (Py.run_length Ch.HYPHEN s) ++ cur)
           (skipn (Py.run_length Ch.HYPHEN s) s).
Proof.
  revert cur. induction s as [|c s IH]; intros cur.
  - reflexivity.
  - destruct (5 <=? Py.run_length Ch.HYPHEN (c :: s)) eqn:E.
    + apply Nat.leb_le in E.
      cbn [Py.split_from]. unfold HYPHENS5 at 1.
      rewrite (at_least_long _ _ _ E).
      destruct (Py.run_length Ch.HYPHEN (c :: s)) as [|n]; [lia|].
      reflexivity.
    + apply Nat.leb_gt in E.
      cbn [Py.run_length] in E |- *.
      destruct (c =? Ch.HYPHEN)%N eqn:Ec; [|reflexivity].
      * apply N.eqb_eq in Ec. subst c.
        cbn [Py.split_from]. unfold HYPHENS5 at 1.
        rewrite at_least_short
          by (cbn [Py.run_length]; rewrite N.eqb_refl; exact E).
        rewrite IH.
        assert (E' : (5 <=? Py.run_length Ch.HYPHEN s) = false)
          by (apply Nat.leb_gt; lia).
        rewrite E'. cbn [skipn]. rewrite repeat_snoc. reflexivity.
Qed.

Lemma segments_split_from (s : str) :
  forall k cur,
    Spec.segments k cur s
    = if 5 <=? k + Py.run_length Ch.HYPHEN s
      then rev cur :: Py.split_from HYPHENS5 (Py.run_length Ch.HYPHEN s) [] s
      else Py.split_from HYPHENS5 0
             (repeat Ch.HYPHEN (k + Py.run_length Ch.HYPHEN s) ++ cur)
             (skipn (Py.run_length Ch.HYPHEN s) s).
Proof.
  induction s as [|c s IH]; intros k cur.
  - cbn [Spec.segments Py.run_length skipn Py.split_from].
    rewrite Nat.add_0_r. destruct (5 <=? k); reflexivity.
  - assert (C : forall cur', Spec.segments 0 cur' s
                             = Py.split_from HYPHENS5 0 cur' s).
    { intros cur'. rewrite (IH 0 cur'). cbn [Nat.add].
      symmetry. apply split_from_run. }
    cbn [Spec.segments Py.run_length].
    destruct (c =? Ch.HYPHEN)%N eqn:Ec.
    + rewrite IH. rewrite Nat.add_succ_r. reflexivity.
    + rewrite Nat.add_0_r. cbn [skipn].
      destruct (5 <=? k) eqn:E.
      * rewrite C. cbn [Py.split_from]. unfold HYPHENS5 at 2.
        rewrite at_least_short; [reflexivity|].
        cbn [Py.run_length]. rewrite Ec. lia.
      * rewrite C. cbn [Py.split_from]. unfold HYPHENS5 at 2.
        rewrite at_least_short; [reflexivity|].
        cbn [Py.run_length]. rewrite Ec. lia.
Qed.

Lemma re_split_segments (s : str) :
  Py.re_split HYPHENS5 s = Spec.segments 0 [] s.
Proof.
  unfold Py.re_split.
  rewrite (segments_split_from s 0 []). cbn [Nat.add].
  apply split_from_run.
Qed.

Lemma body_step1 (s : str) : Stage.body s = Spec.step1 s.
Proof.
  unfold Stage.body, Spec.step1. cbv zeta. rewrite re_split_segments.
  destruct (Spec.segments 0 [] s) as [|a [|b [|c l]]]; reflexivity.
Qed.

(** ** Step 2: the cut at the colophon marker *)

Lemma startswith_firstn (p s : str) :
  Py.startswith p s = true <-> firstn (length p) s = p.
Proof.
  revert s. induction p as [|a p IH]; intros s; simpl.
  - split; reflexivity.
  - destruct s as [|b s]; simpl.
    + split; discriminate.
    + rewrite andb_true_iff, N.eqb_eq, IH. split.
      * intros [-> ->]. reflexivity.
      * intros E. injection E as E1 E2. subst b. split; [reflexivity|exact E2].
Qed.

Lemma startswith_app (p s : str) : Py.startswith p (p ++ s) = true.
Proof.
  apply startswith_firstn.
  rewrite firstn_app, Nat.sub_diag, firstn_all. simpl. apply app_nil_r.
Qed.

Lemma cut_at_cons (p : str) (c : char) (s : str) :
  Py.startswith p (c :: s) = false -> Spec.cut_at p (c :: s) = c :: Spec.cut_at p s.
Proof.
  intros H. unfold Spec.cut_at. cbn [Spec.find].
  destruct (Spec.str_eq_dec (firstn (length p) (c :: s)) p) as [E|_].
  - apply startswith_firstn in E. congruence.
  - destruct (Spec.find p s); reflexivity.
Qed.

Lemma cut_at_here (p s : str) :
  Py.startswith p s = true -> Spec.cut_at p s = [].
Proof.
  intros H. unfold Spec.cut_at.
  apply startswith_firstn in H.
  destruct s as [|c s]; cbn [Spec.find];
    destruct (Spec.str_eq_dec _ p); try reflexivity; contradiction.
Qed.

Lemma split_once_from_hd (sep cur s : str) :
  hd [] (Py.split_once_from sep cur s) = rev cur ++ Spec.cut_at sep s.
Proof.
  revert cur. induction s as [|c s IH]; intros cur.
  - unfold Spec.cut_at. simpl.
    destruct (Spec.str_eq_dec (firstn (length sep) []) sep);
      simpl; now rewrite app_nil_r.
  - cbn [Py.split_once_from].
    destruct (Py.startswith sep (c :: s)) eqn:E.
    + rewrite (cut_at_here _ _ E). simpl. now rewrite app_nil_r.
    + rewrite IH, (cut_at_cons _ _ _ E). simpl. now rewrite <- app_assoc.
Qed.

Lemma before_colophon_step2 (s : str) : Stage.before_colophon s = Spec.step2 s.
Proof.
  unfold Stage.before_colophon, Py.split_once.
  rewrite split_once_from_hd. reflexivity.
Qed.

(** ** Steps 3 and 4: the removal of the spans *)

Lemma sub_from_skipn (m : Py.matcher) (repl : str) (n : nat) (s : str) :
  Py.sub_from m repl n s = Py.sub_from m repl 0 (skipn n s).
Proof.
  revert s. induction n as [|n IH]; intros s; [reflexivity|].
  destruct s as [|c s]; [reflexivity|]. simpl. apply IH.
Qed.

Section RemoveSpans.

Variable m : Py.matcher.
Variable span : str -> option str.

(** The matcher and the span function agree: one gives the length of
    the match, the other the text after it. *)
Hypothesis agree :
  forall s, match m s with
            | Some n => span s = Some (skipn n s) /\ 1 <= n <= length s
            | None => span s = None
            end.

Lemma remove_spans_sub_from (fuel : nat) :
  forall s, length s <= fuel ->
            Spec.remove_spans span fuel s = Py.sub_from m [] 0 s.
Proof.
  induction fuel as [|fuel IH]; intros s Hs.
  - destruct s; [reflexivity|simpl in Hs; lia].
  - destruct s as [|c s]; [reflexivity|].
    cbn [Spec.remove_spans Py.sub_from].
    pose proof (agree (c :: s)) as A.
    destruct (m (c :: s)) as [[|n]|].
    + destruct A as [_ A]. lia.
    + destruct A as [-> A]. cbn [skipn app].
      rewrite sub_from_skipn. apply IH.
      rewrite length_skipn. simpl in Hs. lia.
    + rewrite A. f_equal. apply IH. simpl in Hs. lia.
Qed.

End RemoveSpans.

Lemma lazy_close_after_first (close : char) (s : str) :
  match Py.lazy_close close s with
  | Some n => Spec.after_first_on_line close s = Some (skipn n s)
              /\ 1 <= n <= length s
  | None => Spec.after_first_on_line close s = None
  end.
Proof.
  induction s as [|c s IH]; [reflexivity|].
  cbn [Py.lazy_close Spec.after_first_on_line].
  destruct (c =? close)%N.
  - simpl. split; [reflexivity|lia].
  - destruct (c =? Ch.LF)%N; [reflexivity|].
    destruct (Py.lazy_close close s) as [n|]; simpl.
    + destruct IH as [IH1 IH2]. split; [exact IH1|lia].
    + exact IH.
Qed.

Lemma span_on_line_agree (open : str) (close : char) (s : str) :
  match Py.span open close s with
  | Some n => Spec.span_on_line open close s = Some (skipn n s)
              /\ 1 <= n <= length s
  | None => Spec.span_on_line open close s = None
  end.
Proof.
  unfold Py.span, Spec.span_on_line.
  destruct (Py.startswith open s) eqn:E.
  - pose proof (proj1 (startswith_firstn open s) E) as F.
    destruct (Spec.str_eq_dec (firstn (length open) s) open) as [_|N];
      [|contradiction].
    assert (L : length open <= length s).
    { rewrite <- F at 1. rewrite length_firstn. lia. }
    unfold Py.dot_plus_lazy.
    destruct (skipn (length open) s) as [|c t] eqn:Sk; [reflexivity|].
    assert (Lt : length s = length open + S (length t)).
    { rewrite <- (firstn_skipn (length open) s) at 1.
      rewrite length_app, Sk, length_firstn. simpl. lia. }
    destruct (c =? Ch.LF)%N; [reflexivity|].
    pose proof (lazy_close_after_first close t) as A.
    destruct (Py.lazy_close close t) as [n|]; simpl.
    + destruct A as [A1 A2]. split; [|lia].
      rewrite A1. f_equal.
      replace (length open + S n) with (S n + length open) by lia.
      rewrite <- skipn_skipn, Sk. reflexivity.
    + exact A.
  - destruct (Spec.str_eq_dec (firstn (length open) s) open) as [F|_];
      [|reflexivity].
    apply startswith_firstn in F. congruence.
Qed.

Lemma ruby_step3 (s : str) : Stage.ruby s = Spec.step3_on_line s.
Proof.
  unfold Stage.ruby, Spec.step3_on_line, Py.re_sub, RUBY. symmetry.
  apply remove_spans_sub_from; [|lia].
  intros t. apply span_on_line_agree.
Qed.

Lemma notes_step4 (s : str) : Stage.notes s = Spec.step4_on_line s.
Proof.
  unfold Stage.notes, Spec.step4_on_line, Py.re_sub, NOTE. symmetry.
  apply remove_spans_sub_from; [|lia].
  intros t. apply span_on_line_agree.
Qed.

(** ** Steps 5 and 6: the two replacements *)

Lemma idsp_step5 (s : str) : Stage.idsp s = Spec.step5 s.
Proof.
  unfold Stage.idsp, Spec.step5, Py.replace.
  induction s as [|c s IH]; [reflexivity|].
  cbn [Py.replace_from Py.startswith filter length Nat.sub app].
  rewrite andb_true_r, N.eqb_sym.
  destruct (c =? Ch.IDSP)%N; simpl; [exact IH|f_equal; exact IH].
Qed.

Lemma step6_keep (c : char) (s : str) :
  (c =? Ch.CR)%N = false -> Spec.step6 (c :: s) = c :: Spec.step6 s.
Proof.
  intros H. cbn [Spec.step6]. rewrite H. destruct s; reflexivity.
Qed.

Lemma crlf_step6 (s : str) : Stage.crlf s = Spec.step6 s.
Proof.
  unfold Stage.crlf, Py.replace.
  induction s as [|c s IH]; [reflexivity|].
  cbn [Py.replace_from Py.startswith length Nat.sub app].
  rewrite (N.eqb_sym Ch.CR c).
  destruct s as [|d s].
  - rewrite andb_false_r. reflexivity.
  - rewrite (N.eqb_sym Ch.LF d), andb_true_r.
    cbn [Spec.step6].
    destruct ((c =? Ch.CR)%N && (d =? Ch.LF)%N) eqn:E.
    + apply andb_true_iff in E. destruct E as [_ Ed].
      apply N.eqb_eq in Ed. subst d.
      change (Ch.LF :: Py.replace_from [Ch.CR; Ch.LF] [Ch.LF] 1 (Ch.LF :: s)
              = Spec.step6 (Ch.LF :: s)).
      rewrite <- IH. reflexivity.
    + f_equal. exact IH.
Qed.

(** ** Step 7: the runs of line feeds *)

Lemma sub_from_lf_run (s : str) :
  Py.sub_from LF3 [Ch.LF; Ch.LF] 0 s
  = repeat Ch.LF (Nat.min 2 (Py.run_length Ch.LF s))
    ++ Py.sub_from LF3 [Ch.LF; Ch.LF] 0 (skipn (Py.run_length Ch.LF s) s).
Proof.
  induction s as [|c s IH]; [reflexivity|].
  destruct (3 <=? Py.run_length Ch.LF (c :: s)) eqn:E.
  - apply Nat.leb_le in E.
    cbn [Py.sub_from]. unfold LF3 at 1.
    rewrite (at_least_long _ _ _ E).
    destruct (Py.run_length Ch.LF (c :: s)) as [|[|[|n]]] eqn:R; try lia.
    rewrite sub_from_skipn. reflexivity.
  - apply Nat.leb_gt in E.
    cbn [Py.run_length] in E |- *.
    destruct (c =? Ch.LF)%N eqn:Ec; [|reflexivity].
    apply N.eqb_eq in Ec. subst c.
    cbn [Py.sub_from]. unfold LF3 at 1.
    rewrite at_least_short
      by (cbn [Py.run_length]; rewrite N.eqb_refl; exact E).
    rewrite IH. cbn [skipn].
    destruct (Py.run_length Ch.LF s) as [|[|n]]; try lia; reflexivity.
Qed.

Lemma at_most_two_sub_from (s : str) :
  forall k,
    Spec.at_most_two k s
    = repeat Ch.LF (Nat.min 2 (k + Py.run_length Ch.LF s) - Nat.min 2 k)
      ++ Py.sub_from LF3 [Ch.LF; Ch.LF] 0 (skipn (Py.run_length Ch.LF s) s).
Proof.
  induction s as [|c s IH]; intros k.
  - cbn [Spec.at_most_two Py.run_length skipn Py.sub_from].
    rewrite Nat.add_0_r, Nat.sub_diag. reflexivity.
  - cbn [Spec.at_most_two Py.run_length].
    destruct (c =? Ch.LF)%N eqn:Ec.
    + apply N.eqb_eq in Ec. subst c. cbn [skipn].
      rewrite IH, Nat.add_succ_r. cbn [Nat.add].
      destruct (k <? 2) eqn:Ek.
      * apply Nat.ltb_lt in Ek.
        change (Ch.LF :: repeat Ch.LF ?n ++ ?t)
          with (repeat Ch.LF (S n) ++ t).
        f_equal. f_equal. lia.
      * apply Nat.ltb_ge in Ek. f_equal. f_equal. lia.
    + rewrite Nat.add_0_r, Nat.sub_diag. cbn [repeat app skipn].
      cbn [Py.sub_from]. unfold LF3 at 1.
      rewrite at_least_short by (cbn [Py.run_length]; rewrite Ec; lia).
      f_equal. rewrite (IH 0). cbn [Nat.add Nat.min Nat.sub].
      rewrite Nat.sub_0_r. symmetry. apply sub_from_lf_run.
Qed.

Lemma blank_lines_step7 (s : str) : Stage.blank_lines s = Spec.step7 s.
Proof.
  unfold Stage.blank_lines, Spec.step7, Py.re_sub.
  rewrite (at_most_two_sub_from s 0). cbn [Nat.add Nat.min Nat.sub].
  rewrite Nat.sub_0_r. apply sub_from_lf_run.
Qed.

(** ** Step 8: the trim *)

Lemma trim_right_acc (s acc : str) :
  acc <> [] ->
  fold_right
    (fun c acc =>
       match acc with
       | [] => if Py.isspace c then [] else [c]
       | _ :: _ => c :: acc
       end) acc s = s ++ acc.
Proof.
  intros Hacc. induction s as [|c s IH]; [reflexivity|].
  simpl. rewrite IH. destruct (s ++ acc) eqn:E; [|reflexivity].
  apply app_eq_nil in E. destruct E. contradiction.
Qed.

Lemma trim_right_snoc (s : str) (c : char) :
  Spec.trim_right (s ++ [c])
  = if Py.isspace c then Spec.trim_right s else s ++ [c].
Proof.
  unfold Spec.trim_right. rewrite fold_right_app. simpl.
  destruct (Py.isspace c); [reflexivity|].
  apply trim_right_acc. discriminate.
Qed.

Lemma rstrip_snoc (s : str) (c : char) :
  Py.rstrip (s ++ [c]) = if Py.isspace c then Py.rstrip s else s ++ [c].
Proof.
  unfold Py.rstrip. rewrite rev_app_distr. simpl.
  destruct (Py.isspace c); [reflexivity|].
  simpl. now rewrite rev_involutive.
Qed.

Lemma rstrip_trim_right (s : str) : Py.rstrip s = Spec.trim_right s.
Proof.
  induction s as [|c s IH] using rev_ind; [reflexivity|].
  rewrite rstrip_snoc, trim_right_snoc, IH. reflexivity.
Qed.

Lemma lstrip_trim_left (s : str) : Py.lstrip s = Spec.trim_left s.
Proof.
  induction s as [|c s IH]; [reflexivity|].
  simpl. rewrite IH. reflexivity.
Qed.

Lemma trim_step8 (s : str) : Stage.trim s = Spec.step8 s.
Proof.
  unfold Stage.trim, Py.strip, Spec.step8.
  rewrite rstrip_trim_right, lstrip_trim_left. reflexivity.
Qed.

(** ** C1: the normalizer and the eight steps *)

(** C1, as stated, fails: with a span as the specification has it (the
    opening bracket, anything, the nearest closing bracket), a ruby span
    that runs over a line feed is removed by step 3, and the source
    leaves it in place, because [.] does not match a line feed. *)
Lemma C1_span_over_two_lines :
  Aozora._strip_ruby_and_notes Input.ruby_two_lines = Ok Input.ruby_two_lines
  /\ Spec.normalize Input.ruby_two_lines = []
  /\ Aozora._strip_ruby_and_notes Input.ruby_two_lines
     <> Ok (Spec.normalize Input.ruby_two_lines).
Proof.
  split; [reflexivity|]. split; [reflexivity|].
  vm_compute. discriminate.
Qed.

(** C1, amended: for every text, [_strip_ruby_and_notes] returns the
    composition of the eight steps in the order of the specification,
    where the spans that steps 3 and 4 remove are those on one line with
    at least one character between the brackets. *)
Theorem C1_strip_is_the_eight_steps (text : str) :
  Aozora._strip_ruby_and_notes text = Ok (Spec.normalize_on_line text).
Proof.
  rewrite strip_normalized. f_equal.
  unfold Stage.normalized, Stage.markup, Stage.tidy, Spec.normalize_on_line.
  rewrite trim_step8, blank_lines_step7, crlf_step6, idsp_step5,
    notes_step4, ruby_step3, before_colophon_step2, body_step1.
  reflexivity.
Qed.

(** ** C2: no failure mode *)

(** C2: [_strip_ruby_and_notes] returns a string for every string, the
    two subscripts of lines 55 and 56 being always in range, and the
    empty text gives the empty text. *)
Theorem C2_strip_never_raises :
  (forall text : str, exists out : str,
      Aozora._strip_ruby_and_notes text = Ok out)
  /\ Aozora._strip_ruby_and_notes [] = Ok [].
Proof.
  split; [|reflexivity].
  intros text. exists (Stage.normalized text). apply strip_normalized.
Qed.

(** ** C9: the two copies *)

(** C9: the function of [src/aozora.py] and the function of
    [src/app.py] return the same result on every text. *)
Theorem C9_aozora_app_agree (text : str) :
  Aozora._strip_ruby_and_notes text = App._strip_ruby_and_notes text.
Proof. reflexivity. Qed.

(** ** C5: fewer than two hyphen rules *)

Lemma length_segments (s : str) :
  forall k cur, length (Spec.segments k cur s) = S (hyphen_rules k s).
Proof.
  induction s as [|c s IH]; intros k cur; cbn [Spec.segments hyphen_rules].
  - destruct (5 <=? k); reflexivity.
  - destruct (c =? Ch.HYPHEN)%N; [apply IH|].
    destruct (5 <=? k); simpl; rewrite IH; reflexivity.
Qed.

Lemma length_re_split (s : str) :
  length (Py.re_split HYPHENS5 s) = S (hyphen_rules 0 s).
Proof. rewrite re_split_segments. apply length_segments. Qed.

Lemma body_few_rules (text : str) :
  hyphen_rules 0 text < 2 -> Stage.body text = text.
Proof.
  intros H. unfold Stage.body. cbv zeta.
  destruct (3 <=? length (Py.re_split HYPHENS5 text)) eqn:E; [|reflexivity].
  apply Nat.leb_le in E. rewrite length_re_split in E. lia.
Qed.

(** C5: when the text has fewer than two runs of five or more hyphens,
    the split gives fewer than three sections and lines 53-55 leave the
    text as it is: the function is then lines 56-62 applied to the text
    itself. *)
Theorem C5_front_matter_noop (text : str) :
  hyphen_rules 0 text < 2 ->
  length (Py.re_split HYPHENS5 text) < 3
  /\ Stage.front_matter text = Ok text
  /\ Aozora._strip_ruby_and_notes text
     = (t <- Stage.colophon text ;; Ok (Stage.markup t)).
Proof.
  intros H.
  assert (L : length (Py.re_split HYPHENS5 text) < 3)
    by (rewrite length_re_split; lia).
  assert (F : Stage.front_matter text = Ok text).
  { rewrite front_matter_ok. f_equal. apply body_few_rules, H. }
  split; [exact L|]. split; [exact F|].
  rewrite strip_by_stages, F. reflexivity.
Qed.

Lemma C5_front_matter_noop_witness :
  hyphen_rules 0 Input.one_rule < 2
  /\ length (Py.re_split HYPHENS5 Input.one_rule) < 3
  /\ Stage.front_matter Input.one_rule = Ok Input.one_rule
  /\ Aozora._strip_ruby_and_notes Input.one_rule
     = (t <- Stage.colophon Input.one_rule ;; Ok (Stage.markup t)).
Proof.
  assert (H : hyphen_rules 0 Input.one_rule < 2) by (vm_compute; lia).
  split; [exact H|]. exact (C5_front_matter_noop Input.one_rule H).
Defined.

(** ** C4: the cut at the colophon marker *)

Lemma find_first (p pre post : str) :
  (forall j, j < length pre -> ~ occurs_at p (pre ++ p ++ post) j) ->
  Spec.find p (pre ++ p ++ post) = Some (length pre).
Proof.
  induction pre as [|c pre IH]; intros H.
  - assert (E : firstn (length p) (p ++ post) = p).
    { rewrite firstn_app, Nat.sub_diag, firstn_all. simpl. apply app_nil_r. }
    simpl. destruct (p ++ post); cbn [Spec.find];
      destruct (Spec.str_eq_dec _ p); try reflexivity; contradiction.
  - cbn [app Spec.find].
    destruct (Spec.str_eq_dec (firstn (length p) (c :: pre ++ p ++ post)) p)
      as [E|_].
    + exfalso. apply (H 0); [simpl; lia|exact E].
    + rewrite IH; [reflexivity|].
      intros j Hj. apply (H (S j)). simpl. lia.
Qed.

Lemma before_colophon_first (pre post : str) :
  (forall j, j < length pre -> ~ occurs_at COLOPHON (pre ++ COLOPHON ++ post) j) ->
  Stage.before_colophon (pre ++ COLOPHON ++ post) = pre.
Proof.
  intros H. rewrite before_colophon_step2.
  unfold Spec.step2, Spec.cut_at. rewrite (find_first _ _ _ H).
  rewrite firstn_app, Nat.sub_diag, firstn_all. simpl. apply app_nil_r.
Qed.

(** C4, as stated, fails: a marker in a section that lines 53-55 discard
    is not seen by line 56.  Here the text begins with the marker, so
    all of it stands from the marker on, and the function returns the
    body that follows the second rule. *)
Lemma C4_marker_in_front_matter :
  contains COLOPHON Input.marker_in_front = true
  /\ Py.startswith COLOPHON Input.marker_in_front = true
  /\ Aozora._strip_ruby_and_notes Input.marker_in_front
     = Ok [66; 79; 68; 89]%N
  /\ contains [66; 79; 68; 89]%N
       (skipn (length COLOPHON) Input.marker_in_front) = true.
Proof. repeat split; reflexivity. Qed.

(** C4, amended: when the text that reaches line 56 (the text itself, or
    its third section when it has two hyphen rules or more) has the
    marker and [pre] is what stands before its first occurrence, line 56
    gives [pre] itself, unaltered, whatever follows the marker; the
    result of the function is then lines 57-62 applied to [pre], so
    nothing from the marker on has a part in it. *)
Theorem C4_colophon_cut (text pre post : str) :
  Stage.front_matter text = Ok (pre ++ COLOPHON ++ post) ->
  (forall j, j < length pre ->
             ~ occurs_at COLOPHON (pre ++ COLOPHON ++ post) j) ->
  Stage.colophon (pre ++ COLOPHON ++ post) = Ok pre
  /\ Aozora._strip_ruby_and_notes text = Ok (Stage.markup pre).
Proof.
  intros Hf H.
  assert (C : Stage.colophon (pre ++ COLOPHON ++ post) = Ok pre).
  { rewrite colophon_ok. f_equal. apply before_colophon_first. exact H. }
  split; [exact C|].
  rewrite strip_by_stages, Hf. cbn [bind]. rewrite C. reflexivity.
Qed.

Lemma C4_colophon_cut_witness :
  Stage.colophon Input.with_colophon = Ok [Input.a; Input.b]
  /\ Aozora._strip_ruby_and_notes Input.with_colophon
     = Ok (Stage.markup [Input.a; Input.b]).
Proof.
  apply (C4_colophon_cut Input.with_colophon
           [Input.a; Input.b] [Input.c; Ch.LF]).
  - reflexivity.
  - intros j Hj. unfold occurs_at.
    destruct j as [|[|j]]; [vm_compute; discriminate ..|simpl in Hj; lia].
Defined.

(** ** Characters and substrings kept by lines 59-62 *)

Lemma in_step6 (c : char) (s : str) : In c (Spec.step6 s) -> In c s.
Proof.
  induction s as [|d s IH]; [easy|].
  cbn [Spec.step6]. destruct s as [|e s]; [easy|].
  destruct ((d =? Ch.CR)%N && (e =? Ch.LF)%N).
  - intros H. right. exact (IH H).
  - intros [H|H]; [left; exact H|right; exact (IH H)].
Qed.

Lemma in_at_most_two (c : char) (s : str) :
  forall k, In c (Spec.at_most_two k s) -> In c s.
Proof.
  induction s as [|d s IH]; intros k; [easy|].
  cbn [Spec.at_most_two].
  destruct (d =? Ch.LF)%N; [destruct (k <? 2)|].
  - intros [H|H]; [left; exact H|right; exact (IH _ H)].
  - intros H. right. exact (IH _ H).
  - intros [H|H]; [left; exact H|right; exact (IH _ H)].
Qed.

(** What [lstrip] and [rstrip] take away. *)
Lemma lstrip_suffix (s : str) : exists w, s = w ++ Py.lstrip s.
Proof.
  induction s as [|c s [w IH]]; [exists []; reflexivity|].
  simpl. destruct (Py.isspace c).
  - exists (c :: w). simpl. f_equal. exact IH.
  - exists []. reflexivity.
Qed.

Lemma rstrip_prefix (s : str) : exists w, s = Py.rstrip s ++ w.
Proof.
  unfold Py.rstrip. destruct (lstrip_suffix (rev s)) as [w E].
  exists (rev w). rewrite <- rev_app_distr, <- E. now rewrite rev_involutive.
Qed.

Lemma strip_infix (s : str) : exists u w, s = u ++ Py.strip s ++ w.
Proof.
  unfold Py.strip.
  destruct (lstrip_suffix s) as [u Eu].
  destruct (rstrip_prefix (Py.lstrip s)) as [w Ew].
  exists u, w. rewrite <- Ew. exact Eu.
Qed.

Lemma in_strip (c : char) (s : str) : In c (Py.strip s) -> In c s.
Proof.
  intros H. destruct (strip_infix s) as (u & w & E). rewrite E.
  apply in_or_app. right. apply in_or_app. left. exact H.
Qed.

Lemma not_in_step5 (s : str) : ~ In Ch.IDSP (Spec.step5 s).
Proof.
  unfold Spec.step5. intros H. apply filter_In in H.
  destruct H as [_ H]. rewrite N.eqb_refl in H. discriminate.
Qed.

Lemma tidy_no_idsp (s : str) : ~ In Ch.IDSP (Stage.tidy s).
Proof.
  unfold Stage.tidy, Stage.trim. intros H.
  apply in_strip in H. rewrite blank_lines_step7 in H.
  apply in_at_most_two in H. rewrite crlf_step6 in H.
  apply in_step6 in H. rewrite idsp_step5 in H.
  exact (not_in_step5 _ H).
Qed.

(** ** Patterns that look at one line *)

Lemma first_line_prefix (t : str) : exists r, t = first_line t ++ r.
Proof.
  induction t as [|c t [r IH]]; [exists []; reflexivity|].
  simpl. destruct (c =? Ch.LF)%N.
  - exists (c :: t). reflexivity.
  - exists r. simpl. f_equal. exact IH.
Qed.

Lemma extends_refl (t : str) : extends t t.
Proof. exact (first_line_prefix t). Qed.

Lemma extends_cons (c : char) (t s : str) :
  extends t s -> extends (c :: t) (c :: s).
Proof.
  intros [w E]. unfold extends. simpl. destruct (c =? Ch.LF)%N.
  - exists (c :: s). reflexivity.
  - exists w. simpl. f_equal. exact E.
Qed.

Lemma extends_lf (t s : str) : extends (Ch.LF :: t) s.
Proof. exists s. reflexivity. Qed.

Lemma extends_app (t w : str) : extends t (t ++ w).
Proof.
  destruct (first_line_prefix t) as [r E]. exists (r ++ w).
  rewrite app_assoc, <- E. reflexivity.
Qed.

Lemma run_length_first_line (c : char) (t w : str) :
  c <> Ch.LF -> Py.run_length c t <= Py.run_length c (first_line t ++ w).
Proof.
  intros Hc. induction t as [|d t IH]; simpl; [lia|].
  destruct (d =? c)%N eqn:E; [|lia].
  apply N.eqb_eq in E. subst d.
  destruct (c =? Ch.LF)%N eqn:E'; [apply N.eqb_eq in E'; contradiction|].
  simpl. rewrite N.eqb_refl. lia.
Qed.

Lemma at_least_line_local (n : nat) (c : char) :
  c <> Ch.LF -> line_local (Py.at_least (S n) c).
Proof.
  intros Hc. split; [reflexivity|].
  intros t w. unfold matches, Py.at_least. cbv zeta.
  pose proof (run_length_first_line c t w Hc) as L.
  destruct (S n <=? Py.run_length c t) eqn:E; [|discriminate].
  apply Nat.leb_le in E. intros _.
  destruct (S n <=? Py.run_length c (first_line t ++ w)) eqn:E';
    [reflexivity|].
  apply Nat.leb_gt in E'. lia.
Qed.

Lemma startswith_first_line (p t w : str) :
  ~ In Ch.LF p -> Py.startswith p t = true ->
  Py.startswith p (first_line t ++ w) = true.
Proof.
  revert t. induction p as [|a p IH]; intros t Hp H; [reflexivity|].
  destruct t as [|b t]; [discriminate|].
  simpl in H. apply andb_true_iff in H. destruct H as [Hab H].
  apply N.eqb_eq in Hab. subst b. simpl.
  destruct (a =? Ch.LF)%N eqn:E.
  - apply N.eqb_eq in E. exfalso. apply Hp. left. now symmetry.
  - simpl. rewrite N.eqb_refl. apply IH; [|exact H].
    intros Hin. apply Hp. right. exact Hin.
Qed.

Lemma skipn_first_line (p t w : str) :
  ~ In Ch.LF p -> Py.startswith p t = true ->
  skipn (length p) (first_line t ++ w)
  = first_line (skipn (length p) t) ++ w.
Proof.
  revert t. induction p as [|a p IH]; intros t Hp H; [reflexivity|].
  destruct t as [|b t]; [discriminate|].
  simpl in H. apply andb_true_iff in H. destruct H as [Hab H].
  apply N.eqb_eq in Hab. subst b. simpl.
  destruct (a =? Ch.LF)%N eqn:E.
  - apply N.eqb_eq in E. exfalso. apply Hp. left. now symmetry.
  - simpl. apply IH; [|exact H].
    intros Hin. apply Hp. right. exact Hin.
Qed.


Lemma lazy_close_first_line (close : char) (u w : str) (n : nat) :
  close <> Ch.LF ->
  Py.lazy_close close u = Some n ->
  Py.lazy_close close (first_line u ++ w) = Some n.
Proof.
  intros Hc. revert n. induction u as [|c u IH]; intros n; [discriminate|].
  cbn [Py.lazy_close first_line].
  destruct (c =? close)%N eqn:E.
  - apply N.eqb_eq in E. subst c.
    destruct (close =? Ch.LF)%N eqn:E'; [apply N.eqb_eq in E'; contradiction|].
    intros H. simpl. rewrite N.eqb_refl. exact H.
  - destruct (c =? Ch.LF)%N eqn:E'; [discriminate|].
    simpl. rewrite E, E'.
    destruct (Py.lazy_close close u) as [k|]; [|discriminate].
    rewrite (IH k eq_refl). trivial.
Qed.

Lemma span_line_local (a : char) (open : str) (close : char) :
  ~ In Ch.LF (a :: open) -> close <> Ch.LF ->
  line_local (Py.span (a :: open) close).
Proof.
  intros Ho Hc. split; [reflexivity|].
  intros t w. unfold matches, Py.span.
  destruct (Py.startswith (a :: open) t) eqn:E; [|discriminate].
  rewrite (startswith_first_line _ _ w Ho E).
  rewrite (skipn_first_line _ _ w Ho E).
  destruct (skipn (length (a :: open)) t) as [|c u]; [discriminate|].
  unfold Py.dot_plus_lazy. cbn [first_line].
  destruct (c =? Ch.LF)%N eqn:E'; [discriminate|].
  cbn [app]. rewrite E'.
  destruct (Py.lazy_close close u) as [k|] eqn:L; [|discriminate].
  rewrite (lazy_close_first_line close u w k Hc L). reflexivity.
Qed.


Lemma HYPHENS5_line_local : line_local HYPHENS5.
Proof. apply at_least_line_local. discriminate. Qed.


Lemma RUBY_line_local : line_local RUBY.
Proof.
  apply span_line_local; [|discriminate].
  intros [H|[]]. discriminate.
Qed.


(** ** What lines 60-62 cannot create *)

Lemma search_suffix (m : Py.matcher) (u s : str) :
  search m (u ++ s) = false -> search m s = false.
Proof.
  induction u as [|c u IH]; [trivial|].
  simpl. intros H. apply orb_false_iff in H. apply IH, H.
Qed.

Lemma extends_step6 (s : str) : extends (Spec.step6 s) s.
Proof.
  induction s as [|c s IH]; [exists []; reflexivity|].
  cbn [Spec.step6]. destruct s as [|d s]; [apply extends_refl|].
  destruct ((c =? Ch.CR)%N && (d =? Ch.LF)%N) eqn:E.
  - apply andb_true_iff in E. destruct E as [_ Ed].
    apply N.eqb_eq in Ed. subst d.
    rewrite step6_keep by reflexivity. apply extends_lf.
  - apply extends_cons. exact IH.
Qed.

Lemma extends_at_most_two (s : str) : extends (Spec.at_most_two 0 s) s.
Proof.
  induction s as [|c s IH]; [exists []; reflexivity|].
  cbn [Spec.at_most_two]. destruct (c =? Ch.LF)%N eqn:E.
  - apply N.eqb_eq in E. subst c. simpl. apply extends_lf.
  - apply extends_cons. exact IH.
Qed.

Section PrefixStable.

Variable m : Py.matcher.
Hypothesis stable : prefix_stable m.

Lemma search_prefix (s w : str) :
  search m (s ++ w) = false -> search m s = false.
Proof.
  induction s as [|c s IH]; [reflexivity|].
  cbn [app search]. intros H. apply orb_false_iff in H.
  destruct H as [H1 H2]. apply orb_false_iff. split; [|apply IH, H2].
  destruct (matches m (c :: s)) eqn:M; [|reflexivity].
  apply (stable _ w) in M. simpl in M. congruence.
Qed.

Lemma search_strip (s : str) :
  search m s = false -> search m (Py.strip s) = false.
Proof.
  intros H. destruct (strip_infix s) as (u & w & E). rewrite E in H.
  apply search_suffix in H. apply search_prefix in H. exact H.
Qed.

End PrefixStable.

Section LineLocal.

Variable m : Py.matcher.
Hypothesis local : line_local m.

Lemma matches_extends (t s : str) :
  extends t s -> matches m s = false -> matches m t = false.
Proof.
  intros [w E] H. destruct (matches m t) eqn:M; [|reflexivity].
  apply (proj2 local t w) in M. rewrite <- E in M. congruence.
Qed.

Lemma matches_lf (t : str) : matches m (Ch.LF :: t) = false.
Proof.
  apply (matches_extends (Ch.LF :: t) []); [apply extends_lf|].
  unfold matches. now rewrite (proj1 local).
Qed.

Lemma local_prefix_stable : prefix_stable m.
Proof.
  intros t w H. destruct (matches m (t ++ w)) eqn:M; [reflexivity|].
  rewrite (matches_extends t (t ++ w) (extends_app t w) M) in H.
  discriminate.
Qed.

Lemma search_step6 (s : str) :
  search m s = false -> search m (Spec.step6 s) = false.
Proof.
  induction s as [|c s IH]; [trivial|].
  intros H. pose proof H as H0.
  cbn [search] in H. apply orb_false_iff in H. destruct H as [H1 H2].
  specialize (IH H2).
  cbn [Spec.step6]. destruct s as [|d s]; [exact H0|].
  destruct ((c =? Ch.CR)%N && (d =? Ch.LF)%N); [exact IH|].
  cbn [search]. apply orb_false_iff. split; [|exact IH].
  apply (matches_extends _ (c :: d :: s)); [|exact H1].
  apply extends_cons, extends_step6.
Qed.

Lemma search_at_most_two (s : str) :
  forall k, search m s = false -> search m (Spec.at_most_two k s) = false.
Proof.
  induction s as [|c s IH]; intros k H; [reflexivity|].
  cbn [search] in H. apply orb_false_iff in H. destruct H as [H1 H2].
  cbn [Spec.at_most_two]. destruct (c =? Ch.LF)%N eqn:E.
  - apply N.eqb_eq in E. subst c.
    destruct (k <? 2); [|apply IH, H2].
    cbn [search]. rewrite matches_lf. apply IH, H2.
  - cbn [search]. apply orb_false_iff. split; [|apply IH, H2].
    apply (matches_extends _ (c :: s)); [|exact H1].
    apply extends_cons, extends_at_most_two.
Qed.

(** Lines 60-62 leave no match of [m] in a text that has none. *)
Lemma search_crlf_blank_trim (s : str) :
  search m s = false ->
  search m (Stage.trim (Stage.blank_lines (Stage.crlf s))) = false.
Proof.
  intros H. unfold Stage.trim. apply (search_strip m local_prefix_stable).
  rewrite blank_lines_step7. apply search_at_most_two.
  rewrite crlf_step6. apply search_step6. exact H.
Qed.

End LineLocal.

(** ** The output of lines 59-62 *)

Lemma startswith_app_l (p t w : str) :
  Py.startswith p t = true -> Py.startswith p (t ++ w) = true.
Proof.
  revert t. induction p as [|a p IH]; intros t H; [reflexivity|].
  destruct t as [|b t]; [discriminate|].
  simpl in H |- *. apply andb_true_iff in H. destruct H as [H1 H2].
  rewrite H1. simpl. apply IH, H2.
Qed.

Lemma literal_prefix_stable (p : str) : prefix_stable (literal p).
Proof.
  intros t w. unfold matches, literal.
  destruct (Py.startswith p t) eqn:E; [|discriminate].
  rewrite (startswith_app_l _ _ w E). reflexivity.
Qed.

Lemma contains_strip (p s : str) :
  contains p s = false -> contains p (Py.strip s) = false.
Proof. apply search_strip, literal_prefix_stable. Qed.

Lemma matches_literal (p s : str) :
  matches (literal p) s = Py.startswith p s.
Proof. unfold matches, literal. destruct (Py.startswith p s); reflexivity. Qed.

(** No run of three line feeds after line 61. *)
Lemma at_most_two_runs (s : str) :
  forall k,
    contains [Ch.LF; Ch.LF; Ch.LF] (Spec.at_most_two k s) = false
    /\ Py.run_length Ch.LF (Spec.at_most_two k s) <= 2 - k.
Proof.
  induction s as [|c s IH]; intros k; [split; [reflexivity|simpl; lia]|].
  cbn [Spec.at_most_two]. destruct (c =? Ch.LF)%N eqn:E.
  - apply N.eqb_eq in E. subst c. destruct (k <? 2) eqn:Ek.
    + apply Nat.ltb_lt in Ek. destruct (IH (S k)) as [IH1 IH2].
      assert (R : Py.run_length Ch.LF (Ch.LF :: Spec.at_most_two (S k) s)
                  <= 2 - k)
        by (cbn [Py.run_length]; rewrite N.eqb_refl; lia).
      split; [|exact R].
      unfold contains. cbn [search]. fold (contains [Ch.LF; Ch.LF; Ch.LF]
        (Spec.at_most_two (S k) s)). rewrite IH1, orb_false_r.
      rewrite matches_literal.
      destruct (Spec.at_most_two (S k) s) as [|d [|e t]];
        [reflexivity|cbn [Py.startswith]; now rewrite !andb_false_r|].
      cbn [Py.run_length] in R. cbn [Py.startswith].
      rewrite (N.eqb_sym Ch.LF d), (N.eqb_sym Ch.LF e), N.eqb_refl.
      rewrite N.eqb_refl in R.
      destruct (d =? Ch.LF)%N; [|reflexivity].
      destruct (e =? Ch.LF)%N; [lia|reflexivity].
    + apply Nat.ltb_ge in Ek. destruct (IH (S k)) as [IH1 IH2].
      split; [exact IH1|lia].
  - destruct (IH 0) as [IH1 _]. split.
    + unfold contains. cbn [search]. fold (contains [Ch.LF; Ch.LF; Ch.LF]
        (Spec.at_most_two 0 s)). rewrite IH1, orb_false_r.
      rewrite matches_literal. cbn [Py.startswith].
      now rewrite N.eqb_sym, E.
    + cbn [Py.run_length]. rewrite E. lia.
Qed.

Lemma tidy_no_lf3 (s : str) : contains [Ch.LF; Ch.LF; Ch.LF] (Stage.tidy s) = false.
Proof.
  unfold Stage.tidy, Stage.trim. apply contains_strip.
  rewrite blank_lines_step7. apply at_most_two_runs.
Qed.

(** No white space at either end after line 62. *)
Lemma lstrip_head (s : str) (c : char) :
  hd_error (Py.lstrip s) = Some c -> Py.isspace c = false.
Proof.
  induction s as [|d s IH]; [discriminate|].
  simpl. destruct (Py.isspace d) eqn:E; [exact IH|].
  simpl. intros H. injection H as <-. exact E.
Qed.

Lemma strip_trimmed (s : str) : trimmed (Py.strip s).
Proof.
  unfold Py.strip. split; intros c H.
  - destruct (rstrip_prefix (Py.lstrip s)) as [w E].
    apply (lstrip_head s). rewrite E.
    destruct (Py.rstrip (Py.lstrip s)); [discriminate|exact H].
  - unfold Py.rstrip in H. rewrite rev_involutive in H.
    exact (lstrip_head _ _ H).
Qed.

(** ** CR LF pairs after line 60 *)

Lemma contains_cons (p : str) (c : char) (s : str) :
  contains p (c :: s) = Py.startswith p (c :: s) || contains p s.
Proof. unfold contains. cbn [search]. now rewrite matches_literal. Qed.

Lemma startswith_cons (a : char) (p : str) (c : char) (s : str) :
  Py.startswith (a :: p) (c :: s) = (a =? c)%N && Py.startswith p s.
Proof. reflexivity. Qed.

Lemma startswith_one (a : char) (s : str) (c : char) :
  Py.startswith [a] (c :: s) = (a =? c)%N.
Proof. rewrite startswith_cons. apply andb_true_r. Qed.

Lemma startswith_lf_step6 (s : str) :
  Py.startswith [Ch.LF] (Spec.step6 s) = true ->
  Py.startswith [Ch.LF] s = true \/ Py.startswith [Ch.CR; Ch.LF] s = true.
Proof.
  destruct s as [|c [|d s]]; [discriminate|left; assumption|].
  cbn [Spec.step6].
  destruct ((c =? Ch.CR)%N && (d =? Ch.LF)%N) eqn:E.
  - intros _. right. rewrite startswith_cons, startswith_one.
    now rewrite (N.eqb_sym Ch.CR), (N.eqb_sym Ch.LF).
  - rewrite !startswith_one. intros H. left. exact H.
Qed.

Lemma step6_no_crlf (s : str) :
  contains [Ch.CR; Ch.CR; Ch.LF] s = false ->
  contains [Ch.CR; Ch.LF] (Spec.step6 s) = false.
Proof.
  induction s as [|c s IH]; [reflexivity|].
  intros H. rewrite contains_cons in H. apply orb_false_iff in H.
  destruct H as [H1 H2]. specialize (IH H2).
  cbn [Spec.step6]. destruct s as [|d s].
  - rewrite contains_cons, startswith_cons. cbn [Py.startswith].
    now rewrite andb_false_r.
  - destruct ((c =? Ch.CR)%N && (d =? Ch.LF)%N) eqn:E; [exact IH|].
    rewrite contains_cons, IH, orb_false_r.
    destruct (Py.startswith [Ch.CR; Ch.LF] (c :: Spec.step6 (d :: s))) eqn:T;
      [|reflexivity].
    exfalso. rewrite startswith_cons in T, H1.
    apply andb_true_iff in T. destruct T as [Tc T].
    rewrite Tc in H1. rewrite N.eqb_sym in Tc. rewrite Tc in E.
    cbn [andb] in H1, E.
    destruct (startswith_lf_step6 _ T) as [L|L].
    + rewrite startswith_one, N.eqb_sym in L. congruence.
    + congruence.
Qed.

Lemma startswith_lf_at_most_two (s : str) :
  Py.startswith [Ch.LF] (Spec.at_most_two 0 s) = Py.startswith [Ch.LF] s.
Proof.
  destruct s as [|c s]; [reflexivity|].
  cbn [Spec.at_most_two]. destruct (c =? Ch.LF)%N; cbn [Nat.ltb Nat.leb];
    now rewrite !startswith_one.
Qed.

Lemma at_most_two_no_crlf (s : str) :
  forall k,
    contains [Ch.CR; Ch.LF] s = false ->
    contains [Ch.CR; Ch.LF] (Spec.at_most_two k s) = false.
Proof.
  induction s as [|c s IH]; intros k H; [reflexivity|].
  rewrite contains_cons in H. apply orb_false_iff in H.
  destruct H as [H1 H2].
  cbn [Spec.at_most_two]. destruct (c =? Ch.LF)%N eqn:E.
  - apply N.eqb_eq in E. subst c.
    destruct (k <? 2); [|apply IH, H2].
    rewrite contains_cons, (IH _ H2), orb_false_r. reflexivity.
  - rewrite contains_cons, (IH _ H2), orb_false_r.
    rewrite startswith_cons in H1 |- *.
    now rewrite startswith_lf_at_most_two.
Qed.

Lemma crlf_blank_trim_no_crlf (s : str) :
  contains [Ch.CR; Ch.CR; Ch.LF] s = false ->
  contains [Ch.CR; Ch.LF] (Stage.trim (Stage.blank_lines (Stage.crlf s)))
  = false.
Proof.
  intros H. unfold Stage.trim. apply contains_strip.
  rewrite blank_lines_step7. apply at_most_two_no_crlf.
  rewrite crlf_step6. apply step6_no_crlf. exact H.
Qed.

Lemma tidy_no_crlf (s : str) :
  contains [Ch.CR; Ch.CR; Ch.LF] (Stage.idsp s) = false ->
  contains [Ch.CR; Ch.LF] (Stage.tidy s) = false.
Proof. apply crlf_blank_trim_no_crlf. Qed.

(** ** C10: the output *)

(** C10, as stated, fails: [str.replace] passes over the text once, so a
    carriage return before a CR LF pair makes a new pair with the line
    feed that the replacement writes. *)
Lemma C10_cr_before_crlf :
  Aozora._strip_ruby_and_notes Input.cr_cr_lf
  = Ok [Input.a; Ch.CR; Ch.LF; Input.b]
  /\ contains [Ch.CR; Ch.LF] [Input.a; Ch.CR; Ch.LF; Input.b] = true.
Proof. split; reflexivity. Qed.

(** C10, amended: for every text the output has no U+3000, no run of
    three line feeds and no white space at either end; it has no CR LF
    pair when the text that reaches line 60 has no carriage return
    right before a CR LF pair. *)
Theorem C10_output_clean (text : str) :
  exists out : str,
    Aozora._strip_ruby_and_notes text = Ok out
    /\ ~ In Ch.IDSP out
    /\ contains [Ch.LF; Ch.LF; Ch.LF] out = false
    /\ trimmed out
    /\ (contains [Ch.CR; Ch.CR; Ch.LF] (Stage.before_crlf text) = false ->
        contains [Ch.CR; Ch.LF] out = false).
Proof.
  exists (Stage.normalized text). split; [apply strip_normalized|].
  unfold Stage.normalized, Stage.markup.
  split; [apply tidy_no_idsp|]. split; [apply tidy_no_lf3|].
  split; [apply strip_trimmed|]. apply tidy_no_crlf.
Qed.

Lemma C10_output_clean_witness :
  exists out : str,
    Aozora._strip_ruby_and_notes Scenario.s2 = Ok out
    /\ ~ In Ch.IDSP out
    /\ contains [Ch.LF; Ch.LF; Ch.LF] out = false
    /\ trimmed out
    /\ contains [Ch.CR; Ch.LF] out = false.
Proof.
  destruct (C10_output_clean Scenario.s2) as (out & E & H1 & H2 & H3 & H4).
  exists out. repeat split; try assumption; try apply H3.
  apply H4. reflexivity.
Defined.

(** ** Texts that a statement leaves as they are *)

Lemma matches_false (m : Py.matcher) (s : str) :
  matches m s = false -> m s = None.
Proof. unfold matches. destruct (m s); [discriminate|reflexivity]. Qed.

Lemma search_false_split (m : Py.matcher) (s : str) :
  forall cur, search m s = false ->
              Py.split_from m 0 cur s = [rev cur ++ s].
Proof.
  induction s as [|c s IH]; intros cur H.
  - simpl. now rewrite app_nil_r.
  - cbn [search] in H. apply orb_false_iff in H. destruct H as [H1 H2].
    cbn [Py.split_from]. rewrite (matches_false _ _ H1), (IH _ H2).
    simpl. now rewrite <- app_assoc.
Qed.

Lemma search_false_sub (m : Py.matcher) (repl s : str) :
  search m s = false -> Py.re_sub m repl s = s.
Proof.
  unfold Py.re_sub. induction s as [|c s IH]; intros H; [reflexivity|].
  cbn [search] in H. apply orb_false_iff in H. destruct H as [H1 H2].
  cbn [Py.sub_from]. rewrite (matches_false _ _ H1), (IH H2). reflexivity.
Qed.

Lemma contains_false_split_once (p s : str) :
  forall cur, contains p s = false ->
              Py.split_once_from p cur s = [rev cur ++ s].
Proof.
  induction s as [|c s IH]; intros cur H.
  - simpl. now rewrite app_nil_r.
  - rewrite contains_cons in H. apply orb_false_iff in H.
    destruct H as [H1 H2].
    cbn [Py.split_once_from]. rewrite H1, (IH _ H2).
    simpl. now rewrite <- app_assoc.
Qed.



Lemma before_colophon_id (s : str) :
  contains COLOPHON s = false -> Stage.before_colophon s = s.
Proof.
  intros H. unfold Stage.before_colophon, Py.split_once.
  rewrite (contains_false_split_once _ _ [] H). reflexivity.
Qed.

Lemma not_in_search (m : Py.matcher) (a : char) (s : str) :
  starts_with_char m a -> ~ In a s -> search m s = false.
Proof.
  intros Hm. induction s as [|c s IH]; intros Hs; [reflexivity|].
  cbn [search]. rewrite IH by (intros H; apply Hs; right; exact H).
  rewrite orb_false_r. destruct (matches m (c :: s)) eqn:M; [|reflexivity].
  destruct (Hm _ M) as [u E]. injection E as -> _.
  exfalso. apply Hs. left. reflexivity.
Qed.

Lemma at_least_starts (n : nat) (c : char) :
  starts_with_char (Py.at_least (S n) c) c.
Proof.
  intros t. unfold matches, Py.at_least. cbv zeta.
  destruct t as [|d t]; [discriminate|]. cbn [Py.run_length].
  destruct (d =? c)%N eqn:E; [|discriminate].
  apply N.eqb_eq in E. subst d. intros _. exists t. reflexivity.
Qed.

Lemma startswith_starts (a : char) (p t : str) :
  Py.startswith (a :: p) t = true -> exists u, t = a :: u.
Proof.
  destruct t as [|b t]; [discriminate|].
  rewrite startswith_cons. intros H. apply andb_true_iff in H.
  destruct H as [H _]. apply N.eqb_eq in H. subst b. exists t. reflexivity.
Qed.

Lemma literal_starts (a : char) (p : str) :
  starts_with_char (literal (a :: p)) a.
Proof. intros t. rewrite matches_literal. apply startswith_starts. Qed.

Lemma span_starts (a : char) (open : str) (close : char) :
  starts_with_char (Py.span (a :: open) close) a.
Proof.
  intros t. unfold matches, Py.span.
  destruct (Py.startswith (a :: open) t) eqn:E; [|discriminate].
  intros _. exact (startswith_starts _ _ _ E).
Qed.

(** ** C6: the runs of line feeds *)

















(** ** C7: a second pass *)















(** ** Steps 3 and 4, span by span *)

Lemma lazy_close_on_line (close : char) (u : str) :
  close <> Ch.LF ->
  forall n, Py.lazy_close close u = Some n -> ~ In Ch.LF (firstn n u).
Proof.
  intros Hc. induction u as [|c u IH]; intros n; [discriminate|].
  cbn [Py.lazy_close]. destruct (c =? close)%N eqn:E.
  - apply N.eqb_eq in E. subst c. intros H. injection H as <-.
    intros [H|[]]. congruence.
  - destruct (c =? Ch.LF)%N eqn:E'; [discriminate|].
    apply N.eqb_neq in E'.
    destruct (Py.lazy_close close u) as [k|]; [|discriminate].
    intros H. injection H as <-. intros [H|H]; [congruence|].
    exact (IH k eq_refl H).
Qed.

Lemma span_on_line (a : char) (open : str) (close : char) :
  ~ In Ch.LF (a :: open) -> close <> Ch.LF ->
  match_on_line (Py.span (a :: open) close).
Proof.
  intros Ho Hc s n. unfold Py.span.
  destruct (Py.startswith (a :: open) s) eqn:E; [|discriminate].
  apply startswith_firstn in E.
  rewrite <- (firstn_skipn (length (a :: open)) s) at 2. rewrite E.
  destruct (skipn (length (a :: open)) s) as [|c u]; [discriminate|].
  unfold Py.dot_plus_lazy.
  destruct (c =? Ch.LF)%N eqn:E'; [discriminate|]. apply N.eqb_neq in E'.
  destruct (Py.lazy_close close u) as [k|] eqn:L; [|discriminate].
  intros H. injection H as <-.
  rewrite firstn_app, firstn_all2 by (cbn [length]; lia).
  intros H. apply in_app_or in H. destruct H as [H|H]; [exact (Ho H)|].
  replace (S (length open + S k) - length (a :: open)) with (S k) in H
    by (cbn [length]; lia).
  cbn [firstn] in H. destruct H as [H|H]; [congruence|].
  exact (lazy_close_on_line close u Hc k L H).
Qed.

Lemma sub_from_subline (m : Py.matcher) (s : str) :
  match_on_line m ->
  forall k, ~ In Ch.LF (firstn k s) -> subline (Py.sub_from m [] k s) s.
Proof.
  intros Hm. induction s as [|c s IH]; intros k Hk; [constructor|].
  cbn [Py.sub_from]. destruct k as [|k].
  - destruct (m (c :: s)) as [[|n]|] eqn:M.
    + apply subline_keep, IH. simpl. tauto.
    + pose proof (Hm _ _ M) as L. cbn [firstn] in L. cbn [app].
      apply subline_drop.
      * intros ->. apply L. left. reflexivity.
      * apply IH. intros H. apply L. right. exact H.
    + apply subline_keep, IH. simpl. tauto.
  - cbn [firstn] in Hk. apply subline_drop.
    + intros ->. apply Hk. left. reflexivity.
    + apply IH. intros H. apply Hk. right. exact H.
Qed.

Lemma re_sub_subline (m : Py.matcher) (s : str) :
  match_on_line m -> subline (Py.re_sub m [] s) s.
Proof. intros Hm. apply sub_from_subline; [exact Hm|]. simpl. tauto. Qed.

Lemma step5_subline (s : str) : subline (Spec.step5 s) s.
Proof.
  induction s as [|c s IH]; [constructor|].
  unfold Spec.step5. cbn [filter].
  destruct (c =? Ch.IDSP)%N eqn:E; cbn [negb].
  - apply subline_drop; [|exact IH].
    apply N.eqb_eq in E. subst c. discriminate.
  - apply subline_keep. exact IH.
Qed.

Lemma subline_nil_inv (t : str) : subline t [] -> t = [].
Proof. intros H. inversion H. reflexivity. Qed.

Lemma lazy_close_subline (close : char) (t s : str) :
  subline t s ->
  Py.lazy_close close s = None -> Py.lazy_close close t = None.
Proof.
  induction 1 as [|c t s H IH|c t s Hc H IH]; [trivial| |].
  - cbn [Py.lazy_close]. destruct (c =? close)%N; [discriminate|].
    destruct (c =? Ch.LF)%N; [trivial|].
    destruct (Py.lazy_close close s); [discriminate|].
    now rewrite IH.
  - cbn [Py.lazy_close]. destruct (c =? close)%N; [discriminate|].
    apply N.eqb_neq in Hc. rewrite Hc.
    destruct (Py.lazy_close close s); [discriminate|]. intros _. now apply IH.
Qed.

Lemma dot_plus_lazy_subline (close : char) (t s : str) :
  subline t s ->
  Py.dot_plus_lazy close s = None -> Py.dot_plus_lazy close t = None.
Proof.
  intros H. inversion H as [|c t' s' H'|c t' s' Hc H']; subst; [trivial| |].
  - unfold Py.dot_plus_lazy. destruct (c =? Ch.LF)%N; [trivial|].
    destruct (Py.lazy_close close s') eqn:L; [discriminate|].
    now rewrite (lazy_close_subline close _ _ H' L).
  - unfold Py.dot_plus_lazy at 1. apply N.eqb_neq in Hc. rewrite Hc.
    destruct (Py.lazy_close close s') eqn:L; [discriminate|]. intros _.
    pose proof (lazy_close_subline close _ _ H' L) as L'.
    destruct t as [|e t]; [reflexivity|].
    unfold Py.dot_plus_lazy. destruct (e =? Ch.LF)%N eqn:Ee; [reflexivity|].
    cbn [Py.lazy_close] in L'. rewrite Ee in L'.
    destruct (e =? close)%N; [discriminate|].
    destruct (Py.lazy_close close t); [discriminate|reflexivity].
Qed.

Lemma matches_subline (o close c : char) (t s : str) :
  subline t s ->
  matches (Py.span [o] close) (c :: s) = false ->
  matches (Py.span [o] close) (c :: t) = false.
Proof.
  intros H. unfold matches, Py.span. rewrite !startswith_one.
  destruct (o =? c)%N; [|trivial]. cbn [length skipn].
  destruct (Py.dot_plus_lazy close s) eqn:D; [discriminate|].
  now rewrite (dot_plus_lazy_subline close _ _ H D).
Qed.

Lemma search_subline (o close : char) (t s : str) :
  subline t s ->
  search (Py.span [o] close) s = false ->
  search (Py.span [o] close) t = false.
Proof.
  induction 1 as [|c t s H IH|c t s Hc H IH]; [trivial| |].
  - cbn [search]. intros E. apply orb_false_iff in E. destruct E as [E1 E2].
    now rewrite (matches_subline _ _ _ _ _ H E1), IH.
  - cbn [search]. intros E. apply orb_false_iff in E. apply IH, E.
Qed.

Lemma sub_from_search (o close : char) (s : str) :
  o <> Ch.LF -> close <> Ch.LF ->
  forall k,
    search (Py.span [o] close) (Py.sub_from (Py.span [o] close) [] k s)
    = false.
Proof.
  intros Ho Hc.
  assert (L : match_on_line (Py.span [o] close)).
  { apply span_on_line; [|exact Hc]. intros [H|[]]. congruence. }
  induction s as [|c s IH]; intros k; [reflexivity|].
  cbn [Py.sub_from]. destruct k as [|k]; [|apply IH].
  destruct (Py.span [o] close (c :: s)) as [[|n]|] eqn:M.
  - pose proof (span_on_line_agree [o] close (c :: s)) as A.
    rewrite M in A. destruct A as [_ A]. lia.
  - apply IH.
  - cbn [search]. rewrite IH, orb_false_r.
    apply (matches_subline _ _ _ _ s).
    + apply (sub_from_subline _ s L 0). simpl. tauto.
    + unfold matches. now rewrite M.
Qed.

Lemma ruby_gone (text : str) : search RUBY (Stage.markup text) = false.
Proof.
  unfold Stage.markup, Stage.tidy.
  apply search_crlf_blank_trim; [apply RUBY_line_local|].
  unfold RUBY. apply (search_subline _ _ _ (Stage.notes (Stage.ruby text))).
  { rewrite idsp_step5. apply step5_subline. }
  apply (search_subline _ _ _ (Stage.ruby text)).
  { unfold Stage.notes. apply re_sub_subline. unfold NOTE.
    apply span_on_line; [|discriminate]. intros [H|[H|[]]]; discriminate. }
  unfold Stage.ruby, Py.re_sub. fold RUBY.
  apply sub_from_search; discriminate.
Qed.

Lemma lazy_close_body (close : char) (body post : str) :
  ~ In Ch.LF body -> ~ In close body ->
  Py.lazy_close close (body ++ close :: post) = Some (S (length body)).
Proof.
  induction body as [|c body IH]; intros H1 H2.
  - simpl. now rewrite N.eqb_refl.
  - cbn [app Py.lazy_close length].
    destruct (c =? close)%N eqn:E.
    { apply N.eqb_eq in E. exfalso. apply H2. left. exact E. }
    destruct (c =? Ch.LF)%N eqn:E'.
    { apply N.eqb_eq in E'. exfalso. apply H1. left. exact E'. }
    rewrite IH; [reflexivity| |]; intros H; [apply H1|apply H2]; right; exact H.
Qed.

Lemma span_match (open : str) (close c : char) (body post : str) :
  c <> Ch.LF -> ~ In Ch.LF body -> ~ In close body ->
  Py.span open close (open ++ c :: body ++ close :: post)
  = Some (length (open ++ c :: body ++ [close])).
Proof.
  intros Hc H1 H2. unfold Py.span. rewrite startswith_app.
  rewrite skipn_app, Nat.sub_diag, skipn_all. cbn [app skipn].
  unfold Py.dot_plus_lazy. apply N.eqb_neq in Hc. rewrite Hc.
  rewrite (lazy_close_body close body post H1 H2). cbn [option_map].
  f_equal. rewrite !length_app. cbn [length]. rewrite length_app.
  cbn [length]. lia.
Qed.

Lemma sub_from_first_match (m : Py.matcher) (a : char) (pre sp post : str) :
  starts_with_char m a -> ~ In a pre ->
  m (sp ++ post) = Some (length sp) -> sp <> [] ->
  Py.sub_from m [] 0 (pre ++ sp ++ post) = pre ++ Py.sub_from m [] 0 post.
Proof.
  intros Hm Hpre Hsp Hne. induction pre as [|c pre IH].
  - cbn [app]. destruct sp as [|d sp]; [contradiction|].
    cbn [app Py.sub_from] in *. rewrite Hsp. cbn [length app].
    rewrite sub_from_skipn, skipn_app, Nat.sub_diag, skipn_all.
    reflexivity.
  - cbn [app Py.sub_from].
    destruct (m (c :: pre ++ sp ++ post)) as [n|] eqn:M.
    + assert (M' : matches m (c :: pre ++ sp ++ post) = true)
        by (unfold matches; now rewrite M).
      destruct (Hm _ M') as [u E]. injection E as -> _.
      exfalso. apply Hpre. left. reflexivity.
    + f_equal. apply IH. intros H. apply Hpre. right. exact H.
Qed.

Lemma remove_first_span (k : bracket) (pre body post : str) (c : char) :
  ~ In (opening_char k) pre ->
  c <> Ch.LF -> ~ In Ch.LF body -> ~ In (closing k) body ->
  remove k (pre ++ opening k ++ c :: body ++ closing k :: post)
  = pre ++ remove k post.
Proof.
  intros Hpre Hc H1 H2.
  assert (G : forall open close a,
             starts_with_char (Py.span open close) a -> ~ In a pre ->
             ~ In close body ->
             Py.re_sub (Py.span open close) []
               (pre ++ open ++ c :: body ++ close :: post)
             = pre ++ Py.re_sub (Py.span open close) [] post).
  { intros open close a Hs Ha Hb. unfold Py.re_sub.
    replace (pre ++ open ++ c :: body ++ close :: post)
      with (pre ++ (open ++ c :: body ++ [close]) ++ post).
    - apply (sub_from_first_match _ a); trivial.
      + rewrite <- (span_match open close c body post Hc H1 Hb).
        f_equal. rewrite <- !app_assoc. cbn [app]. rewrite <- app_assoc.
        reflexivity.
      + destruct open; discriminate.
    - rewrite <- !app_assoc. cbn [app]. rewrite <- app_assoc. reflexivity. }
  destruct k; cbn [remove opening closing opening_char] in *.
  - apply (G _ _ Ch.RUBY_OPEN); trivial. apply span_starts.
  - apply (G _ _ Ch.NOTE_OPEN); trivial. apply span_starts.
Qed.

(** ** C3: the ruby spans and the note spans *)

(** C3, as stated, fails: a note span whose content runs over a line
    feed is delimited by its bracket pair and comes out as it went in,
    because [.] does not match a line feed. *)
Lemma C3_note_over_two_lines :
  Input.note_two_lines
  = opening Note ++ [Input.a; Ch.LF; Input.b] ++ [closing Note]
  /\ ~ In (closing Note) [Input.a; Ch.LF; Input.b]
  /\ Aozora._strip_ruby_and_notes Input.note_two_lines
     = Ok Input.note_two_lines
  /\ contains Input.note_two_lines Input.note_two_lines = true.
Proof.
  split; [reflexivity|]. split; [|split; reflexivity].
  intros [H|[H|[H|[]]]]; discriminate.
Qed.

Lemma lazy_close_inv (close : char) (s : str) (n : nat) :
  Py.lazy_close close s = Some n ->
  exists body post,
    s = body ++ close :: post
    /\ (close = Ch.LF \/ ~ In Ch.LF body) /\ ~ In close body.
Proof.
  revert n. induction s as [|c s IH]; intros n; [discriminate|].
  cbn [Py.lazy_close]. destruct (c =? close)%N eqn:E.
  - apply N.eqb_eq in E. subst c. intros _. exists [], s.
    repeat split; [right|]; intros [].
  - destruct (c =? Ch.LF)%N eqn:E'; [discriminate|].
    destruct (Py.lazy_close close s) as [k|]; [|discriminate].
    intros _. destruct (IH k eq_refl) as (body & post & -> & H1 & H2).
    apply N.eqb_neq in E, E'.
    exists (c :: body), post. split; [reflexivity|]. split.
    + destruct H1 as [H1|H1]; [now left|right].
      intros [H|H]; [congruence|exact (H1 H)].
    + intros [H|H]; [congruence|exact (H2 H)].
Qed.

Lemma pattern_span (k : bracket) :
  pattern k = Py.span (opening k) (closing k).
Proof. destruct k; reflexivity. Qed.

Lemma closing_not_lf (k : bracket) : closing k <> Ch.LF.
Proof. destruct k; discriminate. Qed.

Lemma remove_re_sub (k : bracket) (s : str) :
  remove k s = Py.re_sub (pattern k) [] s.
Proof. destruct k; reflexivity. Qed.

(** The pattern matches at the head of a text exactly when a span stands
    there. *)
Lemma matches_span_at (k : bracket) (s : str) :
  matches (pattern k) s = true <-> span_at k s.
Proof.
  rewrite pattern_span. split.
  - unfold matches, Py.span.
    destruct (Py.startswith (opening k) s) eqn:E; [|discriminate].
    apply startswith_firstn in E.
    destruct (skipn (length (opening k)) s) as [|c u] eqn:K;
      [discriminate|].
    unfold Py.dot_plus_lazy.
    destruct (c =? Ch.LF)%N eqn:Ec; [discriminate|].
    destruct (Py.lazy_close (closing k) u) as [n|] eqn:L; [|discriminate].
    intros _. destruct (lazy_close_inv _ _ _ L) as (body & post & -> & H1 & H2).
    exists c, body, post. split.
    + rewrite <- (firstn_skipn (length (opening k)) s), E, K. reflexivity.
    + split; [now apply N.eqb_neq|]. split; [|exact H2].
      destruct H1 as [H1|H1]; [|exact H1].
      now contradiction (closing_not_lf k).
  - intros (c & body & post & -> & Hc & H1 & H2).
    unfold matches. now rewrite span_match.
Qed.

Lemma no_span_search (k : bracket) (s : str) :
  (forall i, ~ span_starts_at k s i) <-> search (pattern k) s = false.
Proof.
  unfold span_starts_at. induction s as [|c s IH].
  - split; [reflexivity|]. intros _ i (x & body & post & E & _).
    rewrite skipn_nil in E. destruct k; discriminate.
  - cbn [search]. rewrite orb_false_iff, <- IH. split.
    + intros H. split.
      * destruct (matches (pattern k) (c :: s)) eqn:M; [|reflexivity].
        apply matches_span_at in M. now contradiction (H 0).
      * intros i. exact (H (S i)).
    + intros [M H] [|i].
      * cbn [skipn]. intros A. apply matches_span_at in A. congruence.
      * exact (H i).
Qed.

Lemma sub_from_before_match (m : Py.matcher) (pre sp post : str) :
  (forall i, i < length pre ->
             matches m (skipn i (pre ++ sp ++ post)) = false) ->
  m (sp ++ post) = Some (length sp) -> sp <> [] ->
  Py.sub_from m [] 0 (pre ++ sp ++ post) = pre ++ Py.sub_from m [] 0 post.
Proof.
  intros Hpre Hsp Hne. induction pre as [|c pre IH].
  - cbn [app]. destruct sp as [|d sp]; [contradiction|].
    cbn [app Py.sub_from] in *. rewrite Hsp. cbn [length app].
    rewrite sub_from_skipn, skipn_app, Nat.sub_diag, skipn_all.
    reflexivity.
  - cbn [app Py.sub_from].
    pose proof (matches_false _ _ (Hpre 0 (Nat.lt_0_succ _))) as M.
    cbn [skipn app] in M. rewrite M.
    f_equal. apply IH. intros i Hi.
    apply (Hpre (S i)). simpl. lia.
Qed.

Lemma remove_leftmost_span (k : bracket) (pre body post : str) (c : char) :
  (forall i, i < length pre ->
             ~ span_starts_at k
                 (pre ++ opening k ++ c :: body ++ closing k :: post) i) ->
  c <> Ch.LF -> ~ In Ch.LF body -> ~ In (closing k) body ->
  remove k (pre ++ opening k ++ c :: body ++ closing k :: post)
  = pre ++ remove k post.
Proof.
  intros Hpre Hc H1 H2. rewrite !remove_re_sub. unfold Py.re_sub.
  replace (pre ++ opening k ++ c :: body ++ closing k :: post)
    with (pre ++ (opening k ++ c :: body ++ [closing k]) ++ post) in *
    by (rewrite <- !app_assoc; cbn [app]; rewrite <- app_assoc; reflexivity).
  apply sub_from_before_match.
  - intros i Hi. destruct (matches (pattern k) _) eqn:M; [|reflexivity].
    apply matches_span_at in M. now contradiction (Hpre i Hi).
  - rewrite pattern_span, <- (span_match _ _ c body post Hc H1 H2).
    f_equal. rewrite <- !app_assoc. cbn [app]. rewrite <- app_assoc.
    reflexivity.
  - destruct k; discriminate.
Qed.

Lemma remove_nothing (k : bracket) (s : str) :
  (forall i, ~ span_starts_at k s i) -> remove k s = s.
Proof.
  intros H. rewrite remove_re_sub.
  apply search_false_sub, no_span_search, H.
Qed.

(** C3, amended: a span is an opening bracket, at least one character
    and the nearest closing bracket after it, all on one line.  Line 57,
    for the ruby spans, and line 58, for the note spans, leave a text in
    which no span starts as it is; in any other text they keep the text
    before the leftmost span verbatim, take the span away whole,
    brackets included, and go on in the same way with the text after
    it; they only take characters away, never a line feed.  The
    function is lines 59-62 applied to the result, and no ruby span is
    left in its output. *)
Theorem C3_one_line_spans_removed :
  (forall text : str, exists out : str,
      Aozora._strip_ruby_and_notes text = Ok out
      /\ out = Stage.tidy
                (remove Note
                   (remove Ruby (Stage.before_colophon (Stage.body text))))
      /\ search RUBY out = false
      /\ forall i, ~ span_starts_at Ruby out i)
  /\ (forall (k : bracket) (text : str), subline (remove k text) text)
  /\ (forall (k : bracket) (text : str),
         (forall i, ~ span_starts_at k text i) -> remove k text = text)
  /\ (forall (k : bracket) (pre body post : str) (c : char),
         (forall i, i < length pre ->
                    ~ span_starts_at k
                        (pre ++ opening k ++ c :: body ++ closing k :: post)
                        i) ->
         c <> Ch.LF -> ~ In Ch.LF body -> ~ In (closing k) body ->
         remove k (pre ++ opening k ++ c :: body ++ closing k :: post)
         = pre ++ remove k post).
Proof.
  split; [|split; [|split]].
  - intros text. exists (Stage.normalized text).
    split; [apply strip_normalized|]. split; [reflexivity|].
    split; [apply ruby_gone|].
    apply (no_span_search Ruby), ruby_gone.
  - intros k text. destruct k; cbn [remove].
    + apply re_sub_subline, span_on_line; [|discriminate].
      intros [H|[]]. discriminate.
    + apply re_sub_subline, span_on_line; [|discriminate].
      intros [H|[H|[]]]; discriminate.
  - exact remove_nothing.
  - exact remove_leftmost_span.
Qed.

Lemma C3_one_line_spans_removed_witness :
  remove Ruby Input.ruby_after_bracket
  = [Ch.RUBY_OPEN; Ch.LF; Input.a] ++ remove Ruby [Input.b]
  /\ remove Ruby [Input.b] = [Input.b]
  /\ remove Note Input.note_after_bracket
     = [Ch.NOTE_OPEN; Input.a] ++ remove Note [Input.b; Ch.LF; Input.c]
  /\ remove Note [Input.b; Ch.LF; Input.c] = [Input.b; Ch.LF; Input.c].
Proof.
  destruct C3_one_line_spans_removed as (_ & _ & N & H).
  assert (A : forall k s i,
             search (pattern k) s = false -> ~ span_starts_at k s i).
  { intros k s i E. now apply no_span_search. }
  split; [|split; [|split]].
  - apply (H Ruby [Ch.RUBY_OPEN; Ch.LF; Input.a] [12415%N] [Input.b]
             12424%N).
    + intros i Hi A'. apply matches_span_at in A'.
      destruct i as [|[|[|i]]]; [discriminate ..|simpl in Hi; lia].
    + discriminate.
    + intros [E|[]]. discriminate.
    + intros [E|[]]. discriminate.
  - apply (N Ruby). intros i. now apply A.
  - apply (H Note [Ch.NOTE_OPEN; Input.a] [] [Input.b; Ch.LF; Input.c]
             27880%N).
    + intros i Hi A'. apply matches_span_at in A'.
      destruct i as [|[|i]]; [discriminate ..|simpl in Hi; lia].
    + discriminate.
    + intros [].
    + intros [].
  - apply (N Note). intros i. now apply A.
Defined.

(** ** C8: the failures of the extractor *)

Section ExtractorProperties.

Local Open Scope string_scope.

Lemma filter_none {A} (f : A -> bool) (l : list A) :
  (forall x, In x l -> f x = false) -> filter f l = [].
Proof.
  induction l as [|a l IH]; intros H; [reflexivity|].
  simpl. rewrite (H a (or_introl eq_refl)). apply IH.
  intros x Hx. apply H. right. exact Hx.
Qed.

Lemma glob_txt_none (dir : String.string) (names : Os.listing) :
  (forall n, In n names ->
             Os.endswith ".txt" n = true -> Os.ishidden n = true) ->
  Os.glob_txt dir names = [].
Proof.
  intros H. unfold Os.glob_txt. rewrite filter_none; [reflexivity|].
  intros n Hn. specialize (H n Hn).
  destruct (Os.endswith ".txt" n); [|apply andb_false_r].
  now rewrite H.
Qed.





End ExtractorProperties.

(** * Further properties of the normalizer *)

(** ** The function only takes characters away *)

Lemma subseq_refl (s : str) : subseq s s.
Proof. induction s; constructor; assumption. Qed.

Lemma subseq_nil_l (s : str) : subseq [] s.
Proof. induction s; constructor; assumption. Qed.

Lemma subseq_trans (a b c : str) : subseq a b -> subseq b c -> subseq a c.
Proof.
  intros Hab Hbc. revert a Hab.
  induction Hbc as [|x b c H IH|x b c H IH]; intros a Hab.
  - exact Hab.
  - inversion Hab; subst.
    + apply subseq_keep, IH. assumption.
    + apply subseq_drop, IH. assumption.
  - apply subseq_drop, IH, Hab.
Qed.

Lemma subseq_app (a b c d : str) :
  subseq a b -> subseq c d -> subseq (a ++ c) (b ++ d).
Proof.
  intros Hab Hcd. induction Hab; simpl; [exact Hcd| |];
    constructor; assumption.
Qed.

Lemma subseq_app_r (u s : str) : subseq s (u ++ s).
Proof. induction u; simpl; [apply subseq_refl|now constructor]. Qed.

Lemma subseq_app_l (s w : str) : subseq s (s ++ w).
Proof.
  rewrite <- (app_nil_r s) at 1. apply subseq_app;
    [apply subseq_refl|apply subseq_nil_l].
Qed.

Lemma subseq_length (t s : str) : subseq t s -> length t <= length s.
Proof. induction 1; simpl; lia. Qed.

Lemma subline_subseq (t s : str) : subline t s -> subseq t s.
Proof. induction 1; constructor; assumption. Qed.

Lemma split_from_subseq (m : Py.matcher) (s : str) :
  forall k cur x, In x (Py.split_from m k cur s) -> subseq x (rev cur ++ s).
Proof.
  induction s as [|c s IH]; intros k cur x H.
  - simpl in H. destruct H as [<-|[]]. rewrite app_nil_r. apply subseq_refl.
  - cbn [Py.split_from] in H.
    assert (D : forall y, subseq y (rev cur ++ s) ->
                          subseq y (rev cur ++ c :: s)).
    { intros y Hy. apply (subseq_trans _ _ _ Hy).
      apply subseq_app; [apply subseq_refl|].
      apply subseq_drop, subseq_refl. }
    assert (K : forall y, subseq y (rev (c :: cur) ++ s) ->
                          subseq y (rev cur ++ c :: s)).
    { intros y Hy. cbn [rev] in Hy. now rewrite <- app_assoc in Hy. }
    destruct k as [|k]; [|apply D, (IH _ _ _ H)].
    destruct (m (c :: s)) as [[|n]|].
    + apply K, (IH _ _ _ H).
    + destruct H as [<-|H]; [apply subseq_app_l|].
      apply (subseq_trans _ _ _ (IH _ _ _ H)). cbn [rev app].
      apply (subseq_trans _ (c :: s));
        [apply subseq_drop, subseq_refl|apply subseq_app_r].
    + apply K, (IH _ _ _ H).
Qed.

Lemma body_subseq (s : str) : subseq (Stage.body s) s.
Proof.
  unfold Stage.body. cbv zeta.
  destruct (3 <=? length (Py.re_split HYPHENS5 s)) eqn:E;
    [|apply subseq_refl].
  apply Nat.leb_le in E. unfold Py.re_split in *.
  apply (split_from_subseq HYPHENS5 s 0 []). apply nth_In. lia.
Qed.

Lemma before_colophon_subseq (s : str) : subseq (Stage.before_colophon s) s.
Proof.
  rewrite before_colophon_step2. unfold Spec.step2, Spec.cut_at.
  destruct (Spec.find COLOPHON s) as [i|]; [|apply subseq_refl].
  rewrite <- (firstn_skipn i s) at 2. apply subseq_app_l.
Qed.

Lemma step6_subseq (s : str) : subseq (Spec.step6 s) s.
Proof.
  induction s as [|c s IH]; [constructor|].
  cbn [Spec.step6]. destruct s as [|d s]; [apply subseq_refl|].
  destruct ((c =? Ch.CR)%N && (d =? Ch.LF)%N); now constructor.
Qed.

Lemma at_most_two_subseq (s : str) :
  forall k, subseq (Spec.at_most_two k s) s.
Proof.
  induction s as [|c s IH]; intros k; [constructor|].
  cbn [Spec.at_most_two].
  destruct (c =? Ch.LF)%N; [destruct (k <? 2)|]; constructor; apply IH.
Qed.

Lemma strip_subseq (s : str) : subseq (Py.strip s) s.
Proof.
  destruct (strip_infix s) as (u & w & E). rewrite E at 2.
  apply (subseq_trans _ (Py.strip s ++ w));
    [apply subseq_app_l|apply subseq_app_r].
Qed.

Lemma markup_subseq (s : str) : subseq (Stage.markup s) s.
Proof.
  unfold Stage.markup, Stage.tidy, Stage.trim.
  apply (subseq_trans _ _ _ (strip_subseq _)).
  rewrite blank_lines_step7.
  apply (subseq_trans _ _ _ (at_most_two_subseq _ 0)).
  rewrite crlf_step6. apply (subseq_trans _ _ _ (step6_subseq _)).
  rewrite idsp_step5.
  apply (subseq_trans _ _ _ (subline_subseq _ _ (step5_subline _))).
  apply (subseq_trans _ (Stage.ruby s)); apply subline_subseq;
    apply re_sub_subline, span_on_line; try discriminate.
  - intros [H|[H|[]]]; discriminate.
  - intros [H|[]]; discriminate.
Qed.

(** X1: the result of [_strip_ruby_and_notes] is the text without some
    of its characters: nothing is inserted, nothing is moved, and the
    result is never longer than the text. *)
Theorem X1_strip_only_deletes (text : str) :
  exists out : str,
    Aozora._strip_ruby_and_notes text = Ok out
    /\ subseq out text
    /\ length out <= length text.
Proof.
  exists (Stage.normalized text). split; [apply strip_normalized|].
  assert (S : subseq (Stage.normalized text) text).
  { unfold Stage.normalized.
    apply (subseq_trans _ _ _ (markup_subseq _)).
    apply (subseq_trans _ _ _ (before_colophon_subseq _)).
    apply body_subseq. }
  split; [exact S|apply subseq_length, S].
Qed.

(** ** The sections between the hyphen rules *)

Lemma split_from_skipn (m : Py.matcher) (n : nat) (cur s : str) :
  Py.split_from m n cur s = Py.split_from m 0 cur (skipn n s).
Proof.
  revert s. induction n as [|n IH]; intros s; [reflexivity|].
  destruct s as [|c s]; [reflexivity|]. simpl. apply IH.
Qed.

Lemma split_from_plain (s t : str) :
  ~ In Ch.HYPHEN s ->
  forall cur, Py.split_from HYPHENS5 0 cur (s ++ t)
              = Py.split_from HYPHENS5 0 (rev s ++ cur) t.
Proof.
  induction s as [|c s IH]; intros Hs cur; [reflexivity|].
  cbn [app Py.split_from]. unfold HYPHENS5 at 1.
  assert (Hc : (c =? Ch.HYPHEN)%N = false).
  { apply N.eqb_neq. intros ->. apply Hs. left. reflexivity. }
  rewrite at_least_short by (cbn [Py.run_length]; rewrite Hc; lia).
  rewrite IH by (intros H; apply Hs; right; exact H).
  cbn [rev]. now rewrite <- app_assoc.
Qed.

Lemma run_length_repeat (c : char) (n : nat) (t : str) :
  Py.run_length c (repeat c n ++ t) = n + Py.run_length c t.
Proof.
  induction n as [|n IH]; [reflexivity|].
  cbn [repeat app Py.run_length]. now rewrite N.eqb_refl, IH.
Qed.

Lemma split_from_rule (n : nat) (cur t : str) :
  5 <= n ->
  Py.split_from HYPHENS5 0 cur (repeat Ch.HYPHEN n ++ t)
  = rev cur
    :: Py.split_from HYPHENS5 0 [] (skipn (Py.run_length Ch.HYPHEN t) t).
Proof.
  intros Hn. rewrite split_from_run, run_length_repeat.
  destruct (5 <=? n + Py.run_length Ch.HYPHEN t) eqn:E;
    [|apply Nat.leb_gt in E; lia].
  f_equal. rewrite split_from_skipn. f_equal.
  assert (K : skipn n (repeat Ch.HYPHEN n ++ t) = t).
  { rewrite skipn_app, repeat_length, Nat.sub_diag.
    rewrite skipn_all2 by (rewrite repeat_length; lia). reflexivity. }
  rewrite Nat.add_comm, <- skipn_skipn, K. reflexivity.
Qed.

Lemma run_length_plain (s t : str) :
  s <> [] -> ~ In Ch.HYPHEN s -> Py.run_length Ch.HYPHEN (s ++ t) = 0.
Proof.
  intros Hne Hs. destruct s as [|c s]; [contradiction|].
  cbn [app Py.run_length].
  destruct (c =? Ch.HYPHEN)%N eqn:E; [|reflexivity].
  apply N.eqb_eq in E. exfalso. apply Hs. left. exact E.
Qed.

(** The first three sections of a text with two rules or more. *)
Lemma re_split_three (s0 s1 s2 tail : str) (n1 n2 : nat) :
  5 <= n1 -> 5 <= n2 ->
  ~ In Ch.HYPHEN s0 -> ~ In Ch.HYPHEN s1 -> ~ In Ch.HYPHEN s2 ->
  s1 <> [] ->
  (tail = []
   \/ (s2 <> [] /\ exists n3 rest,
          5 <= n3 /\ tail = repeat Ch.HYPHEN n3 ++ rest)) ->
  exists more,
    Py.re_split HYPHENS5
      (s0 ++ repeat Ch.HYPHEN n1 ++ s1 ++ repeat Ch.HYPHEN n2 ++ s2 ++ tail)
    = s0 :: s1 :: s2 :: more.
Proof.
  intros H1 H2 P0 P1 P2 N1 T. unfold Py.re_split.
  rewrite (split_from_plain _ _ P0), app_nil_r, (split_from_rule _ _ _ H1).
  rewrite rev_involutive, (run_length_plain _ _ N1 P1). cbn [skipn].
  rewrite (split_from_plain _ _ P1), app_nil_r, (split_from_rule _ _ _ H2).
  rewrite rev_involutive.
  destruct T as [->|(N2 & n3 & rest & H3 & ->)].
  - rewrite app_nil_r.
    assert (R : Py.run_length Ch.HYPHEN s2 = 0).
    { destruct s2 as [|c s2]; [reflexivity|].
      cbn [Py.run_length]. destruct (c =? Ch.HYPHEN)%N eqn:Ec; [|reflexivity].
      apply N.eqb_eq in Ec. exfalso. apply P2. left. exact Ec. }
    rewrite R. cbn [skipn].
    rewrite (search_false_split HYPHENS5 s2 []).
    + exists []. reflexivity.
    + apply (not_in_search _ Ch.HYPHEN); [apply at_least_starts|exact P2].
  - rewrite (run_length_plain _ _ N2 P2). cbn [skipn].
    rewrite (split_from_plain _ _ P2), app_nil_r, (split_from_rule _ _ _ H3).
    rewrite rev_involutive. eexists. reflexivity.
Qed.

(** X2: in a text with two hyphen rules or more, where the rules are
    runs of five hyphens or more between hyphen-free pieces, only the
    piece between the second rule and the third is kept: the pieces
    before the second rule are dropped, and so is everything from a
    third rule on.  The result of the function is then lines 56-62
    applied to that piece alone. *)
Theorem X2_only_the_third_section (s0 s1 s2 tail : str) (n1 n2 : nat) :
  5 <= n1 -> 5 <= n2 ->
  ~ In Ch.HYPHEN s0 -> ~ In Ch.HYPHEN s1 -> ~ In Ch.HYPHEN s2 ->
  s1 <> [] ->
  (tail = []
   \/ (s2 <> [] /\ exists n3 rest,
          5 <= n3 /\ tail = repeat Ch.HYPHEN n3 ++ rest)) ->
  Stage.front_matter
    (s0 ++ repeat Ch.HYPHEN n1 ++ s1 ++ repeat Ch.HYPHEN n2 ++ s2 ++ tail)
  = Ok s2
  /\ Aozora._strip_ruby_and_notes
       (s0 ++ repeat Ch.HYPHEN n1 ++ s1 ++ repeat Ch.HYPHEN n2 ++ s2 ++ tail)
     = Ok (Stage.markup (Stage.before_colophon s2)).
Proof.
  intros H1 H2 P0 P1 P2 N1 T.
  destruct (re_split_three s0 s1 s2 tail n1 n2 H1 H2 P0 P1 P2 N1 T)
    as [more E].
  assert (B : Stage.body
                (s0 ++ repeat Ch.HYPHEN n1 ++ s1 ++ repeat Ch.HYPHEN n2
                 ++ s2 ++ tail) = s2).
  { unfold Stage.body. cbv zeta. rewrite E. reflexivity. }
  split.
  - rewrite front_matter_ok. f_equal. exact B.
  - rewrite strip_normalized. unfold Stage.normalized. now rewrite B.
Qed.

Lemma X2_only_the_third_section_witness :
  Stage.front_matter Input.three_rules = Ok [Ch.LF; Input.c; Ch.LF]
  /\ Aozora._strip_ruby_and_notes Input.three_rules
     = Ok (Stage.markup (Stage.before_colophon [Ch.LF; Input.c; Ch.LF])).
Proof.
  apply (X2_only_the_third_section [Input.a] [Input.b; Ch.LF]
           [Ch.LF; Input.c; Ch.LF]
           (repeat Ch.HYPHEN 5 ++ [Ch.HYPHEN; Input.a; Input.b]) 5 7).
  - lia.
  - lia.
  - intros [H|[]]; discriminate.
  - intros [H|[H|[]]]; discriminate.
  - intros [H|[H|[H|[]]]]; discriminate.
  - discriminate.
  - right. split; [discriminate|].
    exists 5, [Ch.HYPHEN; Input.a; Input.b]. split; [lia|reflexivity].
Defined.

(** ** White space *)

Lemma lstrip_all_space (s : str) :
  forallb Py.isspace s = true -> Py.lstrip s = [].
Proof.
  induction s as [|c s IH]; [reflexivity|].
  simpl. intros H. apply andb_true_iff in H. destruct H as [Hc Hs].
  rewrite Hc. apply IH, Hs.
Qed.

Lemma strip_all_space (s : str) :
  forallb Py.isspace s = true -> Py.strip s = [].
Proof. intros H. unfold Py.strip. now rewrite (lstrip_all_space _ H). Qed.

Lemma space_is_not (s : str) (x : char) :
  forallb Py.isspace s = true -> Py.isspace x = false -> ~ In x s.
Proof.
  intros H Hx Hin. rewrite forallb_forall in H. specialize (H _ Hin).
  congruence.
Qed.

Lemma all_space_before_trim (s : str) :
  forallb Py.isspace s = true ->
  forallb Py.isspace (Stage.blank_lines (Stage.crlf (Stage.idsp s))) = true.
Proof.
  intros H. rewrite forallb_forall in H |- *. intros c Hc. apply H.
  rewrite blank_lines_step7 in Hc. apply in_at_most_two in Hc.
  rewrite crlf_step6 in Hc. apply in_step6 in Hc.
  rewrite idsp_step5 in Hc. unfold Spec.step5 in Hc.
  apply filter_In in Hc. apply Hc.
Qed.

Lemma markup_without_markers (s : str) :
  hyphen_rules 0 s < 2 -> contains COLOPHON s = false ->
  search RUBY s = false -> search NOTE s = false ->
  Stage.normalized s = Stage.tidy s.
Proof.
  intros H1 H2 H3 H4. unfold Stage.normalized, Stage.markup.
  rewrite (body_few_rules _ H1), (before_colophon_id _ H2).
  unfold Stage.ruby. rewrite (search_false_sub _ _ _ H3).
  unfold Stage.notes. rewrite (search_false_sub _ _ _ H4). reflexivity.
Qed.

Lemma hyphen_rules_plain (s : str) :
  ~ In Ch.HYPHEN s -> hyphen_rules 0 s = 0.
Proof.
  induction s as [|c s IH]; intros H; [reflexivity|].
  cbn [hyphen_rules].
  destruct (c =? Ch.HYPHEN)%N eqn:E.
  - apply N.eqb_eq in E. exfalso. apply H. left. exact E.
  - apply IH. intros Hin. apply H. right. exact Hin.
Qed.

(** X3: a text made of white space only gives the empty text. *)
Theorem X3_blank_text_gives_nothing (text : str) :
  forallb Py.isspace text = true ->
  Aozora._strip_ruby_and_notes text = Ok [].
Proof.
  intros H. rewrite strip_normalized. f_equal.
  pose proof (space_is_not text) as A. specialize (A).
  rewrite markup_without_markers.
  - unfold Stage.tidy, Stage.trim. apply strip_all_space.
    apply (all_space_before_trim _ H).
  - rewrite hyphen_rules_plain; [lia|]. now apply A.
  - apply (not_in_search _ Ch.TEI); [apply literal_starts|]. now apply A.
  - apply (not_in_search _ Ch.RUBY_OPEN); [apply span_starts|]. now apply A.
  - apply (not_in_search _ Ch.NOTE_OPEN); [apply span_starts|]. now apply A.
Qed.

Lemma X3_blank_text_gives_nothing_witness :
  Aozora._strip_ruby_and_notes Input.blank = Ok [].
Proof. apply (X3_blank_text_gives_nothing Input.blank). reflexivity. Defined.

(** ** The characters that are not white space *)

Lemma ink_app (a b : str) : ink (a ++ b) = ink a ++ ink b.
Proof. apply filter_app. Qed.

Lemma ink_space (c : char) (s : str) :
  Py.isspace c = true -> ink (c :: s) = ink s.
Proof. intros H. unfold ink. cbn [filter]. now rewrite H. Qed.

Lemma ink_step5 (s : str) : ink (Spec.step5 s) = ink s.
Proof.
  induction s as [|c s IH]; [reflexivity|].
  unfold Spec.step5. cbn [filter].
  destruct (c =? Ch.IDSP)%N eqn:E; cbn [negb].
  - apply N.eqb_eq in E. subst c. rewrite ink_space by reflexivity. exact IH.
  - unfold ink. cbn [filter]. destruct (negb (Py.isspace c));
      [f_equal|]; exact IH.
Qed.

Lemma ink_step6 (s : str) : ink (Spec.step6 s) = ink s.
Proof.
  induction s as [|c s IH]; [reflexivity|].
  cbn [Spec.step6]. destruct s as [|d s]; [reflexivity|].
  destruct ((c =? Ch.CR)%N && (d =? Ch.LF)%N) eqn:E.
  - apply andb_true_iff in E. destruct E as [Ec _].
    apply N.eqb_eq in Ec. subst c.
    rewrite (ink_space Ch.CR) by reflexivity. exact IH.
  - unfold ink in *. cbn [filter] in *.
    destruct (negb (Py.isspace c)); [f_equal|]; exact IH.
Qed.

Lemma ink_at_most_two (s : str) :
  forall k, ink (Spec.at_most_two k s) = ink s.
Proof.
  induction s as [|c s IH]; intros k; [reflexivity|].
  cbn [Spec.at_most_two]. destruct (c =? Ch.LF)%N eqn:E.
  - apply N.eqb_eq in E. subst c.
    destruct (k <? 2); rewrite ?(ink_space Ch.LF) by reflexivity; apply IH.
  - unfold ink in *. cbn [filter].
    destruct (negb (Py.isspace c)); [f_equal|]; apply IH.
Qed.

Lemma ink_lstrip (s : str) : ink (Py.lstrip s) = ink s.
Proof.
  induction s as [|c s IH]; [reflexivity|].
  cbn [Py.lstrip]. destruct (Py.isspace c) eqn:E; [|reflexivity].
  now rewrite (ink_space _ _ E).
Qed.

Lemma ink_rstrip (s : str) : ink (Py.rstrip s) = ink s.
Proof.
  induction s as [|c s IH] using rev_ind; [reflexivity|].
  rewrite rstrip_snoc. destruct (Py.isspace c) eqn:E; [|reflexivity].
  rewrite IH, ink_app, (ink_space _ _ E). cbn. now rewrite app_nil_r.
Qed.

Lemma ink_tidy (s : str) : ink (Stage.tidy s) = ink s.
Proof.
  unfold Stage.tidy, Stage.trim, Py.strip.
  rewrite ink_rstrip, ink_lstrip, blank_lines_step7.
  unfold Spec.step7. rewrite ink_at_most_two, crlf_step6, ink_step6.
  rewrite idsp_step5. apply ink_step5.
Qed.

(** X4: lines 59-62 change white space only: the characters that are not
    white space are all kept, in their order; for a text without any
    marker pattern this holds of the whole function. *)
Theorem X4_only_white_space_changes :
  (forall s : str, ink (Stage.tidy s) = ink s)
  /\ (forall text : str,
         marker_free text ->
         exists out : str,
           Aozora._strip_ruby_and_notes text = Ok out
           /\ ink out = ink text).
Proof.
  split; [exact ink_tidy|].
  intros text (H1 & H2 & H3 & H4). exists (Stage.normalized text).
  split; [apply strip_normalized|].
  rewrite markup_without_markers by assumption. apply ink_tidy.
Qed.

Lemma X4_only_white_space_changes_witness :
  exists out : str,
    Aozora._strip_ruby_and_notes Input.plain_lines = Ok out
    /\ ink out = ink Input.plain_lines.
Proof.
  apply (proj2 X4_only_white_space_changes Input.plain_lines).
  split; [vm_compute; lia|]. repeat split; reflexivity.
Defined.

(** ** After line 56 and after line 57 *)

Lemma cut_at_prefix (p s : str) : exists w, s = Spec.cut_at p s ++ w.
Proof.
  unfold Spec.cut_at. destruct (Spec.find p s) as [i|].
  - exists (skipn i s). symmetry. apply firstn_skipn.
  - exists []. symmetry. apply app_nil_r.
Qed.

Lemma contains_cut_at (a : char) (p s : str) :
  contains (a :: p) (Spec.cut_at (a :: p) s) = false.
Proof.
  induction s as [|c s IH].
  - unfold Spec.cut_at. cbn [Spec.find].
    destruct (Spec.str_eq_dec (firstn (length (a :: p)) []) (a :: p));
      [discriminate|reflexivity].
  - destruct (Py.startswith (a :: p) (c :: s)) eqn:E.
    + now rewrite (cut_at_here _ _ E).
    + rewrite (cut_at_cons _ _ _ E), contains_cons, IH, orb_false_r.
      destruct (Py.startswith (a :: p) (c :: Spec.cut_at (a :: p) s)) eqn:T;
        [|reflexivity].
      destruct (cut_at_prefix (a :: p) s) as [w Ew].
      apply (startswith_app_l _ _ w) in T. cbn [app] in T.
      rewrite <- Ew in T. congruence.
Qed.

(** X5: the text that line 56 gives never contains the colophon
    marker, whatever the text it receives. *)
Theorem X5_no_marker_after_the_cut (text : str) :
  exists t : str,
    Stage.colophon text = Ok t /\ contains COLOPHON t = false.
Proof.
  exists (Stage.before_colophon text). split; [apply colophon_ok|].
  rewrite before_colophon_step2. apply contains_cut_at.
Qed.

(** X6: line 57 leaves nothing for a second application: the text it
    gives has no ruby span that the pattern matches, so applying it
    again changes nothing. *)
Theorem X6_ruby_removal_idempotent (text : str) :
  search RUBY (Stage.ruby text) = false
  /\ Stage.ruby (Stage.ruby text) = Stage.ruby text.
Proof.
  assert (S : search RUBY (Stage.ruby text) = false).
  { unfold Stage.ruby, Py.re_sub, RUBY. apply sub_from_search; discriminate. }
  split; [exact S|].
  unfold Stage.ruby at 1. apply search_false_sub, S.
Qed.

(** * Properties of the extractor and of the download *)

Section MoreOnTheExtractor.

Local Open Scope string_scope.

Lemma glob_txt_in (dir : String.string) (names : Os.listing)
      (p : String.string) :
  In p (Os.glob_txt dir names) ->
  exists n, In n names /\ Os.endswith ".txt" n = true
            /\ Os.ishidden n = false /\ p = Os.join dir n.
Proof.
  unfold Os.glob_txt. intros H. apply in_map_iff in H.
  destruct H as (n & E & H). apply filter_In in H. destruct H as [Hn Hf].
  apply andb_true_iff in Hf. destruct Hf as [Hh He].
  exists n. repeat split; trivial; [|now symmetry].
  now apply negb_true_iff.
Qed.

(** X7: for a directory path that [glob] takes as it is written: when
    [_extract_text_path] returns a path, the archive was extracted and
    the path is the directory joined with a name of its listing that
    ends in [.txt] and does not begin with a dot; when it raises, it
    raises one of its two classified errors or what the extraction
    itself raised: the subscript of line 49 is always in range. *)
Theorem X7_extract_sound (w : Os.world) (zip_path tmp_dir : String.string) :
  Os.literal_dir tmp_dir = true ->
  (forall p,
      Extractor._extract_text_path w zip_path tmp_dir = Ok p ->
      exists names n,
        w zip_path tmp_dir = Os.Extracted names
        /\ In n names /\ Os.endswith ".txt" n = true
        /\ Os.ishidden n = false /\ p = Os.join tmp_dir n)
  /\ (forall e,
         Extractor._extract_text_path w zip_path tmp_dir = Raise e ->
         e = AozoraProcessingError Extractor.EXTRACT_FAILED
         \/ e = AozoraProcessingError Extractor.NO_TEXT_FOUND
         \/ w zip_path tmp_dir = Os.Failed e).
Proof.
  intros _. unfold Extractor._extract_text_path.
  destruct (w zip_path tmp_dir) as [|e0|names]; cbv zeta.
  - split; [discriminate|]. intros e H. injection H as <-. now left.
  - split; [discriminate|]. intros e H. injection H as <-. now right; right.
  - destruct (Os.glob_txt tmp_dir names) as [|p0 rest] eqn:G.
    + split; [discriminate|]. intros e H. injection H as <-.
      right. now left.
    + cbn [Py.getitem nth_error]. split; [|discriminate].
      intros p H. injection H as <-.
      destruct (glob_txt_in tmp_dir names p0) as (n & H1 & H2 & H3 & H4).
      { rewrite G. left. reflexivity. }
      exists names, n. repeat split; trivial.
Qed.

Lemma X7_extract_sound_witness :
  exists names n,
    World.book "a.zip" "/tmp/x" = Os.Extracted names
    /\ In n names /\ Os.endswith ".txt" n = true
    /\ Os.ishidden n = false /\ "/tmp/x/book.txt" = Os.join "/tmp/x" n.
Proof.
  apply (proj1 (X7_extract_sound World.book "a.zip" "/tmp/x" eq_refl)).
  reflexivity.
Defined.

Lemma split_slash_no_slash (path : String.string) :
  Forall (fun x => has_slash x = false) (Posix.split_slash path).
Proof.
  induction path as [|c rest IH]; [repeat constructor|].
  cbn [Posix.split_slash]. destruct (Ascii.eqb c Posix.SLASH) eqn:E.
  - constructor; [reflexivity|exact IH].
  - destruct (Posix.split_slash rest) as [|x l].
    + repeat constructor. cbn [has_slash]. now rewrite E.
    + inversion IH; subst. constructor; [|assumption].
      cbn [has_slash]. now rewrite E.
Qed.

Lemma last_forall {A} (P : A -> Prop) (l : list A) (d : A) :
  Forall P l -> P d -> P (last l d).
Proof.
  induction l as [|a l IH]; intros H Hd; [exact Hd|].
  inversion H; subst. destruct l as [|b l]; [assumption|].
  apply IH; assumption.
Qed.

Lemma parts_no_slash (path : String.string) :
  Forall (fun x => has_slash x = false) (Posix.parts path).
Proof.
  unfold Posix.parts. apply Forall_forall. intros x Hx.
  apply filter_In in Hx.
  pose proof (split_slash_no_slash path) as F.
  rewrite Forall_forall in F. apply F, Hx.
Qed.

Lemma name_no_slash (path : String.string) :
  has_slash (Posix.name path) = false.
Proof.
  unfold Posix.name. apply last_forall; [apply parts_no_slash|reflexivity].
Qed.

(** X8: the file name that [Path(...).name] takes from the path of the
    URL never has a slash in it and is never a single dot, so the
    download is written to a path that is the temporary directory joined
    with one component. *)
Theorem X8_name_has_no_slash (path : String.string) :
  has_slash (Posix.name path) = false /\ Posix.name path <> ".".
Proof.
  split; [apply name_no_slash|].
  unfold Posix.name, Posix.parts.
  apply (last_forall (fun x => x <> ".")); [|discriminate].
  apply Forall_forall. intros x Hx. apply filter_In in Hx.
  destruct Hx as [_ Hx]. apply andb_true_iff in Hx. destruct Hx as [_ Hx].
  apply negb_true_iff, String.eqb_neq in Hx. exact Hx.
Qed.

End MoreOnTheExtractor.

Section MoreOnTheDownload.

Local Open Scope string_scope.

Lemma split_slash_cons (path : String.string) :
  exists x l, Posix.split_slash path = x :: l.
Proof.
  destruct path as [|c rest]; [now exists "", []|].
  cbn [Posix.split_slash].
  destruct (Ascii.eqb c Posix.SLASH);
    [now exists "", (Posix.split_slash rest)|].
  destruct (Posix.split_slash rest) as [|x l].
  - now exists (String.String c ""), [].
  - now exists (String.String c x), l.
Qed.

Lemma split_slash_single (f : String.string) :
  has_slash f = false -> Posix.split_slash f = [f].
Proof.
  induction f as [|c rest IH]; [reflexivity|].
  cbn [has_slash Posix.split_slash]. intros H.
  apply orb_false_iff in H. destruct H as [Hc Hr].
  rewrite Hc, (IH Hr). reflexivity.
Qed.

Lemma split_slash_app (a b : String.string) :
  Posix.split_slash (String.append a (String.String Posix.SLASH b))
  = (Posix.split_slash a ++ Posix.split_slash b)%list.
Proof.
  induction a as [|c rest IH].
  - cbn [String.append Posix.split_slash]. now rewrite Ascii.eqb_refl.
  - cbn [String.append Posix.split_slash].
    destruct (Ascii.eqb c Posix.SLASH); rewrite IH; [reflexivity|].
    destruct (split_slash_cons rest) as (x & l & E). rewrite E. reflexivity.
Qed.

(** X9: when the path of the URL ends with a component [f] after a
    slash, and [f] is neither empty nor a single dot, the file name is
    [f], whatever stands before the slash. *)
Theorem X9_name_is_the_last_component (dir f : String.string) :
  has_slash f = false -> f <> "" -> f <> "." ->
  Posix.name (String.append dir (String.String Posix.SLASH f)) = f.
Proof.
  intros H1 H2 H3. unfold Posix.name, Posix.parts.
  rewrite split_slash_app, (split_slash_single _ H1), filter_app.
  cbn [filter].
  apply String.eqb_neq in H2, H3. rewrite H2, H3. cbn [negb andb].
  apply last_last.
Qed.

Lemma X9_name_is_the_last_component_witness :
  Posix.name "/files/001/book.zip" = "book.zip".
Proof.
  apply (X9_name_is_the_last_component "/files/001" "book.zip");
    [reflexivity|discriminate|discriminate].
Defined.



End MoreOnTheDownload.

(** * Properties of the pipeline *)

Lemma download_raises (w : Pipeline.world) (zip_url : str)
      (tmp_dir : String.string) (e : exn) :
  Pipeline._download_zip w zip_url tmp_dir = Raise e ->
  e = AozoraProcessingError Pipeline.DOWNLOAD_FAILED
  \/ Pipeline.url_path w zip_url = Raise e.
Proof.
  unfold Pipeline._download_zip.
  destruct (Pipeline.url_path w zip_url) as [path|e0]; cbn [bind]; cbv zeta.
  - destruct (Pipeline.urlretrieve w zip_url _) as [e1|]; [|discriminate].
    intros H. injection H as <-. now left.
  - intros H. injection H as <-. now right.
Qed.

Lemma extract_raises (w : Os.world) (zip_path tmp_dir : String.string)
      (e : exn) :
  Extractor._extract_text_path w zip_path tmp_dir = Raise e ->
  e = AozoraProcessingError Extractor.EXTRACT_FAILED
  \/ e = AozoraProcessingError Extractor.NO_TEXT_FOUND
  \/ w zip_path tmp_dir = Os.Failed e.
Proof.
  unfold Extractor._extract_text_path.
  destruct (w zip_path tmp_dir) as [|e0|names]; cbv zeta.
  - intros H. injection H as <-. now left.
  - intros H. injection H as <-. now right; right.
  - destruct (Os.glob_txt tmp_dir names) as [|p0 rest]; [|discriminate].
    intros H. injection H as <-. right. now left.
Qed.

Lemma read_text_raises (w : Pipeline.world) (zip_url : str)
      (tmp_dir : String.string) (e : exn) :
  Pipeline.read_text w zip_url tmp_dir = Raise e ->
  e = AozoraProcessingError Pipeline.DOWNLOAD_FAILED
  \/ e = AozoraProcessingError Extractor.EXTRACT_FAILED
  \/ e = AozoraProcessingError Extractor.NO_TEXT_FOUND
  \/ raised_by_world w zip_url e.
Proof.
  unfold Pipeline.read_text, raised_by_world.
  destruct (Pipeline._download_zip w zip_url tmp_dir) as [dest|e0] eqn:D;
    cbn [bind].
  - destruct (Extractor._extract_text_path (Pipeline.unzip w) dest tmp_dir)
      as [p|e1] eqn:X; cbn [bind].
    + destruct (Pipeline.read_bytes w p) as [raw|e2] eqn:R; cbn [bind].
      * intros H. do 3 right. do 5 right. now exists raw.
      * intros H. injection H as <-. do 3 right. do 4 right. left.
        now exists p.
    + intros H. injection H as <-.
      destruct (extract_raises _ _ _ _ X) as [E|[E|E]].
      * right. now left.
      * right. right. now left.
      * do 3 right. do 3 right. left. now exists dest, tmp_dir.
  - intros H. injection H as <-.
    destruct (download_raises _ _ _ _ D) as [E|E]; [now left|].
    do 3 right. right. right. now left.
Qed.

(** X11: when [fetch_clean_text] raises, it raises one of the three
    classified errors (download failed, cannot extract, no text found)
    or an exception that one of its calls into the system raised; the
    normalizer at its end never adds one. *)
Theorem X11_fetch_failures (w : Pipeline.world) (zip_url : str) (e : exn) :
  Pipeline.fetch_clean_text w zip_url = Raise e ->
  e = AozoraProcessingError Pipeline.DOWNLOAD_FAILED
  \/ e = AozoraProcessingError Extractor.EXTRACT_FAILED
  \/ e = AozoraProcessingError Extractor.NO_TEXT_FOUND
  \/ raised_by_world w zip_url e.
Proof.
  unfold Pipeline.fetch_clean_text.
  destruct (Pipeline.mkdtemp w) as [d|e0] eqn:M; cbn [bind]; cbv zeta.
  - destruct (Pipeline.cleanup w d) as [e1|] eqn:C.
    + intros H. injection H as <-. do 3 right. right. left. now exists d.
    + destruct (Pipeline.read_text w zip_url d) as [raw|e2] eqn:R;
        cbn [bind].
      * rewrite strip_normalized. discriminate.
      * intros H. injection H as <-. exact (read_text_raises _ _ _ _ R).
  - intros H. injection H as <-. do 3 right. left. exact M.
Qed.

Lemma X11_fetch_failures_witness :
  AozoraProcessingError Extractor.EXTRACT_FAILED
  = AozoraProcessingError Pipeline.DOWNLOAD_FAILED
  \/ AozoraProcessingError Extractor.EXTRACT_FAILED
     = AozoraProcessingError Extractor.EXTRACT_FAILED
  \/ AozoraProcessingError Extractor.EXTRACT_FAILED
     = AozoraProcessingError Extractor.NO_TEXT_FOUND
  \/ raised_by_world Net.serving_html Net.url
       (AozoraProcessingError Extractor.EXTRACT_FAILED).
Proof.
  apply (X11_fetch_failures Net.serving_html Net.url). reflexivity.
Defined.

Lemma normalized_subseq (text : str) : subseq (Stage.normalized text) text.
Proof.
  unfold Stage.normalized.
  apply (subseq_trans _ _ _ (markup_subseq _)).
  apply (subseq_trans _ _ _ (before_colophon_subseq _)).
  apply body_subseq.
Qed.

Lemma fetch_returns (w : Pipeline.world) (zip_url out : str) :
  Pipeline.fetch_clean_text w zip_url = Ok out ->
  exists d dest p raw text,
    Pipeline.mkdtemp w = Ok d
    /\ Pipeline.cleanup w d = None
    /\ Pipeline._download_zip w zip_url d = Ok dest
    /\ Extractor._extract_text_path (Pipeline.unzip w) dest d = Ok p
    /\ Pipeline.read_bytes w p = Ok raw
    /\ Pipeline.decode_shift_jis w raw = Ok text
    /\ out = Stage.normalized text.
Proof.
  unfold Pipeline.fetch_clean_text.
  destruct (Pipeline.mkdtemp w) as [d|e0] eqn:M; cbn [bind]; cbv zeta;
    [|discriminate].
  destruct (Pipeline.cleanup w d) as [e1|] eqn:C; [discriminate|].
  unfold Pipeline.read_text.
  destruct (Pipeline._download_zip w zip_url d) as [dest|e2] eqn:D;
    cbn [bind]; [|discriminate].
  destruct (Extractor._extract_text_path (Pipeline.unzip w) dest d)
    as [p|e3] eqn:X; cbn [bind]; [|discriminate].
  destruct (Pipeline.read_bytes w p) as [raw|e4] eqn:R; cbn [bind];
    [|discriminate].
  destruct (Pipeline.decode_shift_jis w raw) as [text|e5] eqn:T; cbn [bind];
    [|discriminate].
  rewrite strip_normalized. intros H. injection H as <-.
  exists d, dest, p, raw, text. repeat split; trivial.
Qed.

(** X12: [fetch_clean_text] returns a text only when the directory was
    made and removed without error and the download, the extraction, the
    read and the decoding all succeeded; the text it returns is then the
    decoded text without some of its characters, with no U+3000, no run
    of three line feeds, no one-line ruby span and no white space at
    either end. *)
Theorem X12_fetch_result (w : Pipeline.world) (zip_url out : str) :
  Pipeline.fetch_clean_text w zip_url = Ok out ->
  (exists d dest p raw text,
      Pipeline.mkdtemp w = Ok d
      /\ Pipeline.cleanup w d = None
      /\ Pipeline._download_zip w zip_url d = Ok dest
      /\ Extractor._extract_text_path (Pipeline.unzip w) dest d = Ok p
      /\ Pipeline.read_bytes w p = Ok raw
      /\ Pipeline.decode_shift_jis w raw = Ok text
      /\ Aozora._strip_ruby_and_notes text = Ok out
      /\ subseq out text)
  /\ ~ In Ch.IDSP out
  /\ contains [Ch.LF; Ch.LF; Ch.LF] out = false
  /\ search RUBY out = false
  /\ trimmed out.
Proof.
  intros H.
  destruct (fetch_returns _ _ _ H)
    as (d & dest & p & raw & text & H1 & H2 & H3 & H4 & H5 & H6 & ->).
  split.
  - exists d, dest, p, raw, text. repeat split; trivial.
    + apply strip_normalized.
    + apply normalized_subseq.
  - unfold Stage.normalized, Stage.markup.
    split; [apply tidy_no_idsp|]. split; [apply tidy_no_lf3|].
    split; [apply ruby_gone|apply strip_trimmed].
Qed.

Lemma X12_fetch_result_witness :
  Pipeline.fetch_clean_text (Net.serving Scenario.s2) Net.url
  = Ok (Stage.normalized Scenario.s2)
  /\ ~ In Ch.IDSP (Stage.normalized Scenario.s2)
  /\ contains [Ch.LF; Ch.LF; Ch.LF] (Stage.normalized Scenario.s2) = false
  /\ search RUBY (Stage.normalized Scenario.s2) = false
  /\ trimmed (Stage.normalized Scenario.s2).
Proof.
  split; [reflexivity|].
  apply (X12_fetch_result (Net.serving Scenario.s2) Net.url).
  reflexivity.
Defined.

Section FirstFailure.

Local Open Scope string_scope.

(** X20: in a world where the directory is made and removed without
    error, its path is one that [glob] takes as it is written, and
    [urlparse] returns, the first stage that fails decides the
    result of [fetch_clean_text], whatever the later stages would do: a
    failed retrieval gives "download failed"; a payload that is not an
    archive gives "cannot extract"; an archive that leaves no visible
    [.txt] name gives "no text found"; and when the text file is found,
    an exception of the read or of the decoding comes out as it is,
    unclassified. *)
Theorem X20_first_failure_decides
        (w : Pipeline.world) (zip_url : str) (d path : String.string) :
  Pipeline.mkdtemp w = Ok d ->
  Os.literal_dir d = true ->
  Pipeline.cleanup w d = None ->
  Pipeline.url_path w zip_url = Ok path ->
  let dest :=
    Os.join d (Posix.name (if String.eqb path "" then "aozora.zip"
                           else path)) in
  (forall e,
      Pipeline.urlretrieve w zip_url dest = Some e ->
      Pipeline.fetch_clean_text w zip_url
      = Raise (AozoraProcessingError Pipeline.DOWNLOAD_FAILED))
  /\ (Pipeline.urlretrieve w zip_url dest = None ->
      (Pipeline.unzip w dest d = Os.BadZipFile ->
       Pipeline.fetch_clean_text w zip_url
       = Raise (AozoraProcessingError Extractor.EXTRACT_FAILED))
      /\ (forall names,
             Pipeline.unzip w dest d = Os.Extracted names ->
             (forall n, In n names ->
                        Os.endswith ".txt" n = true ->
                        Os.ishidden n = true) ->
             Pipeline.fetch_clean_text w zip_url
             = Raise (AozoraProcessingError Extractor.NO_TEXT_FOUND))
      /\ (forall p e,
             Extractor._extract_text_path (Pipeline.unzip w) dest d = Ok p ->
             Pipeline.read_bytes w p = Raise e ->
             Pipeline.fetch_clean_text w zip_url = Raise e)
      /\ (forall p raw e,
             Extractor._extract_text_path (Pipeline.unzip w) dest d = Ok p ->
             Pipeline.read_bytes w p = Ok raw ->
             Pipeline.decode_shift_jis w raw = Raise e ->
             Pipeline.fetch_clean_text w zip_url = Raise e)).
Proof.
  intros M _ C U dest.
  assert (F : Pipeline.fetch_clean_text w zip_url
              = (raw_text <- Pipeline.read_text w zip_url d ;;
                 Aozora._strip_ruby_and_notes raw_text)).
  { unfold Pipeline.fetch_clean_text. rewrite M. cbn [bind]. cbv zeta.
    now rewrite C. }
  assert (D : Pipeline._download_zip w zip_url d
              = match Pipeline.urlretrieve w zip_url dest with
                | Some _ =>
                    Raise (AozoraProcessingError Pipeline.DOWNLOAD_FAILED)
                | None => Ok dest
                end).
  { unfold Pipeline._download_zip. rewrite U. reflexivity. }
  rewrite F. unfold Pipeline.read_text. rewrite D. split.
  - intros e R. rewrite R. reflexivity.
  - intros R. rewrite R. cbn [bind]. repeat split.
    + intros B. unfold Extractor._extract_text_path. rewrite B. reflexivity.
    + intros names E H. unfold Extractor._extract_text_path. rewrite E.
      cbv zeta. rewrite (glob_txt_none _ _ H). reflexivity.
    + intros p e X R'. rewrite X. cbn [bind]. rewrite R'. reflexivity.
    + intros p raw e X R' T. rewrite X. cbn [bind]. rewrite R'. cbn [bind].
      rewrite T. reflexivity.
Qed.

Lemma X20_first_failure_decides_witness :
  Pipeline.fetch_clean_text Net.offline Net.url
  = Raise (AozoraProcessingError Pipeline.DOWNLOAD_FAILED).
Proof.
  apply (proj1 (X20_first_failure_decides Net.offline Net.url
                  "/tmp/x" "/files/001/book.zip" eq_refl eq_refl eq_refl
                  eq_refl)
           (OtherError "URLError")).
  reflexivity.
Defined.

End FirstFailure.

(** * Properties of the front ends *)

Section FrontEnds.

Local Open Scope string_scope.

Lemma form_url (req : Web.request) :
  exists s,
    Web.or_else (Web.form_get req (Web.lit "url")) (Web.JString [])
    = Web.JString s
    /\ (s = [] \/ Web.lookup (Web.lit "url") (Web.form req) = Some s).
Proof.
  unfold Web.form_get.
  destruct (Web.lookup (Web.lit "url") (Web.form req)) as [u|].
  - destruct u as [|c u]; [exists []; split; [reflexivity|now left]|].
    exists (c :: u). split; [reflexivity|now right].
  - exists []. split; [reflexivity|now left].
Qed.

Lemma blank_form_url (req : Web.request) :
  (forall u, Web.lookup (Web.lit "url") (Web.form req) = Some u ->
             forallb Py.isspace u = true) ->
  Web.strip_value
    (Web.or_else (Web.form_get req (Web.lit "url")) (Web.JString []))
  = Ok [].
Proof.
  intros H. destruct (form_url req) as (s & -> & [->|E]); [reflexivity|].
  cbn [Web.strip_value]. f_equal. apply strip_all_space, H, E.
Qed.

(** X13: a request without a JSON body whose form has no URL, or a URL
    made of white space only, is turned down by each of the three
    handlers with its own message, with status 400 by [convert] and
    [download] and within the page by [index]; the answer is the same in
    every world, nothing is fetched. *)
Theorem X13_blank_url_is_turned_down (w : Pipeline.world) (req : Web.request) :
  Web.get_json req = None ->
  (forall u, Web.lookup (Web.lit "url") (Web.form req) = Some u ->
             forallb Py.isspace u = true) ->
  Web.convert w req = Ok (Web.Json (Web.Error Web.MISSING_URL) 400)
  /\ Web.download w req
     = Ok (Web.Page [] None (Some Web.EMPTY_DOWNLOAD) 400)
  /\ (Web.method req = Web.POST ->
      (forall a, Web.lookup (Web.lit "action") (Web.form req) = Some a ->
                 Web.str_eqb a (Web.lit "clear") = false) ->
      Web.index w req = Ok (Web.Page [] None (Some Web.MISSING_URL) 200)).
Proof.
  intros J B. pose proof (blank_form_url req B) as S. split; [|split].
  - unfold Web.convert. rewrite J. cbn [Web.or_else Web.truthy].
    cbv zeta. cbn [Web.dict_get Web.lookup bind].
    change (Web.or_else Web.JNull ?x) with x. rewrite S. reflexivity.
  - unfold Web.download. rewrite S. reflexivity.
  - intros M A. unfold Web.index. rewrite M. cbv zeta. rewrite S.
    cbn [bind].
    destruct (Web.lookup (Web.lit "action") (Web.form req)) as [a|] eqn:E.
    + now rewrite (A a eq_refl).
    + reflexivity.
Qed.

Lemma X13_blank_url_is_turned_down_witness :
  Web.convert Net.offline (Req.form_with Req.spaces)
  = Ok (Web.Json (Web.Error Web.MISSING_URL) 400)
  /\ Web.download Net.offline (Req.form_with Req.spaces)
     = Ok (Web.Page [] None (Some Web.EMPTY_DOWNLOAD) 400)
  /\ Web.index Net.offline (Req.form_with Req.spaces)
     = Ok (Web.Page [] None (Some Web.MISSING_URL) 200).
Proof.
  destruct (X13_blank_url_is_turned_down Net.offline
              (Req.form_with Req.spaces)) as (H1 & H2 & H3).
  - reflexivity.
  - intros u H. vm_compute in H. injection H as <-. reflexivity.
  - split; [exact H1|]. split; [exact H2|]. apply H3; [reflexivity|].
    intros a H. vm_compute in H. discriminate.
Defined.

Lemma strip_value_ok (v : Web.json) (url : str) :
  Web.strip_value v = Ok url ->
  exists s, v = Web.JString s /\ url = Py.strip s.
Proof.
  destruct v; try discriminate. cbn [Web.strip_value].
  intros H. injection H as <-. now exists s.
Qed.

Lemma answer_after_fetch (r : result str) (url : str) (resp : Web.response) :
  match r with
  | Ok text => Ok (Web.Json (Web.Text text) 200)
  | Raise (AozoraProcessingError message) =>
      Ok (Web.Json (Web.Error message) 400)
  | Raise _ => Ok (Web.Json (Web.Error Web.UNEXPECTED) 500)
  end = Ok resp ->
  (exists text, r = Ok text /\ resp = Web.Json (Web.Text text) 200)
  \/ (exists m, r = Raise (AozoraProcessingError m)
                /\ resp = Web.Json (Web.Error m) 400)
  \/ (exists e, r = Raise e
                /\ (forall m, e <> AozoraProcessingError m)
                /\ resp = Web.Json (Web.Error Web.UNEXPECTED) 500).
Proof.
  destruct r as [text|[|m|what]]; intros H; injection H as <-.
  - left. now exists text.
  - right. right. exists IndexError. repeat split; trivial. discriminate.
  - right. left. now exists m.
  - right. right. exists (OtherError what). repeat split; trivial.
    discriminate.
Qed.

(** X14: every answer of [convert] is the missing-URL error with status
    400, or comes from one call of [fetch_clean_text] on a URL that is
    not empty and has no white space at either end: the text with status
    200 when the call returns, the message of the classified error with
    status 400, and the fixed message with status 500 for every other
    exception, whose own text is never sent. *)
Theorem X14_convert_answers
        (w : Pipeline.world) (req : Web.request) (resp : Web.response) :
  Web.convert w req = Ok resp ->
  resp = Web.Json (Web.Error Web.MISSING_URL) 400
  \/ exists url,
       url <> [] /\ trimmed url
       /\ ((exists text,
               Pipeline.fetch_clean_text w url = Ok text
               /\ resp = Web.Json (Web.Text text) 200)
           \/ (exists m,
                  Pipeline.fetch_clean_text w url
                  = Raise (AozoraProcessingError m)
                  /\ resp = Web.Json (Web.Error m) 400)
           \/ (exists e,
                  Pipeline.fetch_clean_text w url = Raise e
                  /\ (forall m, e <> AozoraProcessingError m)
                  /\ resp = Web.Json (Web.Error Web.UNEXPECTED) 500)).
Proof.
  unfold Web.convert. cbv zeta.
  destruct (Web.dict_get _ _) as [from_json|e0]; cbn [bind]; [|discriminate].
  destruct (Web.strip_value _) as [url|e1] eqn:S; cbn [bind]; [|discriminate].
  destruct (strip_value_ok _ _ S) as (s & _ & Eu).
  destruct url as [|c url]; [intros H; injection H as <-; now left|].
  intros H. right. exists (c :: url). split; [discriminate|].
  split; [rewrite Eu; apply strip_trimmed|].
  exact (answer_after_fetch _ (c :: url) _ H).
Qed.

Lemma X14_convert_answers_witness :
  Web.Json (Web.Text (Stage.normalized Scenario.s1)) 200
  = Web.Json (Web.Error Web.MISSING_URL) 400
  \/ exists url,
       url <> [] /\ trimmed url
       /\ ((exists text,
               Pipeline.fetch_clean_text (Net.serving Scenario.s1) url
               = Ok text
               /\ Web.Json (Web.Text (Stage.normalized Scenario.s1)) 200
                  = Web.Json (Web.Text text) 200)
           \/ (exists m,
                  Pipeline.fetch_clean_text (Net.serving Scenario.s1) url
                  = Raise (AozoraProcessingError m)
                  /\ Web.Json (Web.Text (Stage.normalized Scenario.s1)) 200
                     = Web.Json (Web.Error m) 400)
           \/ (exists e,
                  Pipeline.fetch_clean_text (Net.serving Scenario.s1) url
                  = Raise e
                  /\ (forall m, e <> AozoraProcessingError m)
                  /\ Web.Json (Web.Text (Stage.normalized Scenario.s1)) 200
                     = Web.Json (Web.Error Web.UNEXPECTED) 500)).
Proof.
  apply (X14_convert_answers (Net.serving Scenario.s1)
           (Req.json_with Net.url)).
  reflexivity.
Defined.

Lemma payload_cases (req : Web.request) :
  (exists v, Web.get_json req = Some v /\ Web.truthy v = true
             /\ Web.or_else
                  (match Web.get_json req with
                   | Some v => v
                   | None => Web.JNull
                   end) (Web.JObject []) = v)
  \/ Web.or_else
       (match Web.get_json req with Some v => v | None => Web.JNull end)
       (Web.JObject []) = Web.JObject [].
Proof.
  destruct (Web.get_json req) as [v|]; [|now right].
  unfold Web.or_else. destruct (Web.truthy v) eqn:T; [|now right].
  left. now exists v.
Qed.

Lemma url_value_cases (req : Web.request) (x : Web.json) :
  (Web.truthy x = true
   /\ Web.or_else (Web.or_else x (Web.form_get req (Web.lit "url")))
        (Web.JString []) = x)
  \/ (Web.truthy x = false
      /\ exists s,
           Web.or_else (Web.or_else x (Web.form_get req (Web.lit "url")))
             (Web.JString []) = Web.JString s).
Proof.
  destruct (Web.truthy x) eqn:T.
  - left. split; [reflexivity|]. unfold Web.or_else. now rewrite T, T.
  - right. split; [reflexivity|]. unfold Web.or_else at 2. rewrite T.
    destruct (form_url req) as (s & E & _). now exists s.
Qed.

Lemma strip_value_not_string (x : Web.json) :
  (forall s, x <> Web.JString s) ->
  Web.strip_value x = Raise (OtherError "AttributeError").
Proof.
  intros H. destruct x; try reflexivity. now contradiction (H s).
Qed.

Lemma convert_answers_a_string
      (w : Pipeline.world) (req : Web.request) (x : Web.json) (s : str) :
  Web.dict_get
    (Web.or_else
       (match Web.get_json req with Some v => v | None => Web.JNull end)
       (Web.JObject [])) (Web.lit "url") = Ok x ->
  Web.or_else (Web.or_else x (Web.form_get req (Web.lit "url")))
    (Web.JString []) = Web.JString s ->
  exists resp, Web.convert w req = Ok resp.
Proof.
  intros D V. unfold Web.convert. cbv zeta. rewrite D. cbn [bind].
  rewrite V. cbn [Web.strip_value bind].
  destruct (Py.strip s) as [|c url]; [eauto|].
  destruct (Pipeline.fetch_clean_text w (c :: url)) as [text|[|m|what]];
    eauto.
Qed.

(** X15: [convert] raises only an [AttributeError], and only when the
    request has a JSON body that is true as a condition and is either
    not an object, or an object whose [url] member is true as a
    condition and not a string; with no JSON body, or an empty one, it
    always answers. *)
Theorem X15_convert_raises
        (w : Pipeline.world) (req : Web.request) (e : exn) :
  Web.convert w req = Raise e ->
  e = OtherError "AttributeError"
  /\ exists v,
       Web.get_json req = Some v /\ Web.truthy v = true
       /\ ((forall members, v <> Web.JObject members)
           \/ exists members x,
                v = Web.JObject members
                /\ Web.lookup (Web.lit "url") members = Some x
                /\ Web.truthy x = true
                /\ forall s, x <> Web.JString s).
Proof.
  intros H.
  destruct (Web.dict_get
              (Web.or_else
                 (match Web.get_json req with
                  | Some v => v
                  | None => Web.JNull
                  end) (Web.JObject [])) (Web.lit "url"))
    as [x|e0] eqn:D.
  - destruct (url_value_cases req x) as [[Tx V]|[_ [s V]]].
    + assert (Nx : forall s, x <> Web.JString s).
      { intros s ->.
        destruct (convert_answers_a_string w req _ s D V) as [r R].
        congruence. }
      assert (He : e = OtherError "AttributeError").
      { unfold Web.convert in H. cbv zeta in H. rewrite D in H.
        cbn [bind] in H. rewrite V in H.
        rewrite (strip_value_not_string x Nx) in H. cbn [bind] in H.
        now injection H as <-. }
      split; [exact He|].
      destruct (payload_cases req) as [(v & J & T & P)|P]; rewrite P in D.
      * exists v. split; [exact J|]. split; [exact T|]. right.
        destruct v as [| | | | |members]; cbn [Web.dict_get] in D;
          try discriminate.
        destruct (Web.lookup (Web.lit "url") members) as [y|] eqn:L;
          injection D as D.
        -- subst y. exists members, x. repeat split; trivial.
        -- subst x. discriminate.
      * cbn [Web.dict_get Web.lookup] in D. injection D as D. subst x.
        discriminate.
    + destruct (convert_answers_a_string w req x s D V) as [r R]. congruence.
  - assert (He : e = e0)
      by (unfold Web.convert in H; cbv zeta in H; rewrite D in H;
          cbn [bind] in H; now injection H as <-).
    subst e0.
    destruct (payload_cases req) as [(v & J & T & P)|P]; rewrite P in D;
      [|discriminate].
    destruct v; cbn [Web.dict_get] in D; try discriminate;
      injection D as <-; (split; [reflexivity|]); eexists;
      (split; [exact J|]); (split; [exact T|]); left; discriminate.
Qed.

Lemma X15_convert_raises_witness :
  OtherError "AttributeError" = OtherError "AttributeError"
  /\ exists v,
       Web.get_json Req.json_with_number = Some v /\ Web.truthy v = true
       /\ ((forall members, v <> Web.JObject members)
           \/ exists members x,
                v = Web.JObject members
                /\ Web.lookup (Web.lit "url") members = Some x
                /\ Web.truthy x = true
                /\ forall s, x <> Web.JString s).
Proof.
  apply (X15_convert_raises Net.offline Req.json_with_number).
  reflexivity.
Defined.

Lemma fetch_twice (w : Pipeline.world) (zip_url : str) :
  Pipeline.fetch_aozora_text w zip_url = Pipeline.fetch_clean_text w zip_url.
Proof. reflexivity. Qed.

Ltac page_without_text :=
  split; [reflexivity|]; split; [now left|];
  let t := fresh "t" in let H := fresh "H" in intros t H; discriminate H.

(** X16: [index] never raises and always answers with the page and
    status 200, also when the fetch fails; the page never has a text and
    an error together, and a text on it is what [fetch_aozora_text]
    returned for the URL shown, which is not empty and has no white
    space at either end.  A GET request and the "clear" action give the
    empty page in every world, whatever URL the form holds. *)
Theorem X16_index_always_answers (w : Pipeline.world) (req : Web.request) :
  (exists url text error,
      Web.index w req = Ok (Web.Page url text error 200)
      /\ (text = None \/ error = None)
      /\ (forall t, text = Some t ->
                    url <> [] /\ trimmed url
                    /\ Pipeline.fetch_aozora_text w url = Ok t))
  /\ (Web.method req = Web.GET ->
      Web.index w req = Ok (Web.Page [] None None 200))
  /\ (forall a,
         Web.method req = Web.POST ->
         Web.lookup (Web.lit "action") (Web.form req) = Some a ->
         Web.str_eqb a (Web.lit "clear") = true ->
         Web.index w req = Ok (Web.Page [] None None 200)).
Proof.
  unfold Web.index. cbv zeta.
  destruct (form_url req) as (s & -> & _). cbn [Web.strip_value bind].
  split; [|split].
  - destruct (Web.method req).
    { exists [], None, None. page_without_text. }
    destruct (Web.str_eqb _ (Web.lit "clear")).
    { exists [], None, None. page_without_text. }
    destruct (Py.strip s) as [|c url] eqn:E.
    { exists [], None, (Some Web.MISSING_URL).
      page_without_text. }
    destruct (Pipeline.fetch_aozora_text w (c :: url)) as [t|[|m|what]] eqn:F.
    + exists (c :: url), (Some t), None. split; [reflexivity|].
      split; [now right|]. intros t' H. injection H as <-.
      split; [discriminate|]. split; [|exact F].
      rewrite <- E. apply strip_trimmed.
    + exists (c :: url), None, (Some Web.UNEXPECTED).
      page_without_text.
    + exists (c :: url), None, (Some m).
      page_without_text.
    + exists (c :: url), None, (Some Web.UNEXPECTED).
      page_without_text.
  - intros ->. reflexivity.
  - intros a -> -> ->. reflexivity.
Qed.

Lemma X16_index_always_answers_witness :
  Web.index Net.offline (Req.clear_with Net.url)
  = Ok (Web.Page [] None None 200).
Proof.
  apply (proj2 (proj2 (X16_index_always_answers Net.offline
                         (Req.clear_with Net.url)))
           (Web.lit "clear")); reflexivity.
Defined.

(** X17: [download] answers with the empty-URL page and status 400, or
    with the page that shows the message of a classified error and
    status 400, or with the file whose bytes are the UTF-8 encoding of
    the text that [fetch_aozora_text] returned; it has no handler for
    other exceptions: what it raises is what the fetch raised, never a
    classified error, or what the encoding raised. *)
Theorem X17_download_answers (w : Pipeline.world) (req : Web.request) :
  (forall resp,
      Web.download w req = Ok resp ->
      resp = Web.Page [] None (Some Web.EMPTY_DOWNLOAD) 400
      \/ exists url,
           url <> [] /\ trimmed url
           /\ ((exists m,
                   Pipeline.fetch_aozora_text w url
                   = Raise (AozoraProcessingError m)
                   /\ resp = Web.Page url None (Some m) 400)
               \/ (exists text data,
                      Pipeline.fetch_aozora_text w url = Ok text
                      /\ Utf8.encode text = Ok data
                      /\ resp = Web.File data "text/plain; charset=utf-8"
                                  "aozora_cleaned.txt")))
  /\ (forall e,
         Web.download w req = Raise e ->
         exists url,
           url <> [] /\ trimmed url
           /\ ((Pipeline.fetch_aozora_text w url = Raise e
                /\ forall m, e <> AozoraProcessingError m)
               \/ (exists text,
                      Pipeline.fetch_aozora_text w url = Ok text
                      /\ Utf8.encode text = Raise e))).
Proof.
  unfold Web.download.
  destruct (form_url req) as (s & -> & _). cbn [Web.strip_value bind].
  pose proof (strip_trimmed s) as T.
  destruct (Py.strip s) as [|c url].
  { split; [|discriminate]. intros resp H. injection H as <-. now left. }
  assert (N : c :: url <> []) by discriminate.
  destruct (Pipeline.fetch_aozora_text w (c :: url)) as [text|[|m|what]] eqn:F.
  - destruct (Utf8.encode text) as [data|e0] eqn:U; cbn [bind]; split;
      try discriminate.
    + intros resp H. injection H as <-. right. exists (c :: url).
      split; [exact N|]. split; [exact T|]. right. now exists text, data.
    + intros e H. injection H as <-. exists (c :: url).
      split; [exact N|]. split; [exact T|]. right. now exists text.
  - split; [discriminate|]. intros e H. injection H as <-.
    exists (c :: url). split; [exact N|]. split; [exact T|]. left.
    split; [exact F|discriminate].
  - split; [|discriminate]. intros resp H. injection H as <-. right.
    exists (c :: url). split; [exact N|]. split; [exact T|]. left.
    now exists m.
  - split; [discriminate|]. intros e H. injection H as <-.
    exists (c :: url). split; [exact N|]. split; [exact T|]. left.
    split; [exact F|discriminate].
Qed.

(** X18: the three handlers on one form request (no JSON body, a URL
    that is not blank, not the "clear" action).  When the fetch returns,
    all three give its text.  When it raises a classified error, all
    three show its message, [index] with status 200 and the two others
    with 400.  When it raises anything else, [convert] answers 500 and
    [index] shows the fixed message with status 200, and [download]
    lets the exception through. *)
Theorem X18_one_request_three_handlers
        (w : Pipeline.world) (req : Web.request) (u : str) (c : char)
        (url : str) :
  Web.method req = Web.POST ->
  Web.get_json req = None ->
  Web.lookup (Web.lit "url") (Web.form req) = Some u ->
  Py.strip u = c :: url ->
  (forall a, Web.lookup (Web.lit "action") (Web.form req) = Some a ->
             Web.str_eqb a (Web.lit "clear") = false) ->
  (forall text,
      Pipeline.fetch_clean_text w (c :: url) = Ok text ->
      Web.convert w req = Ok (Web.Json (Web.Text text) 200)
      /\ Web.index w req = Ok (Web.Page (c :: url) (Some text) None 200)
      /\ Web.download w req
         = (data <- Utf8.encode text ;;
            Ok (Web.File data "text/plain; charset=utf-8"
                  "aozora_cleaned.txt")))
  /\ (forall m,
         Pipeline.fetch_clean_text w (c :: url)
         = Raise (AozoraProcessingError m) ->
         Web.convert w req = Ok (Web.Json (Web.Error m) 400)
         /\ Web.index w req = Ok (Web.Page (c :: url) None (Some m) 200)
         /\ Web.download w req = Ok (Web.Page (c :: url) None (Some m) 400))
  /\ (forall e,
         Pipeline.fetch_clean_text w (c :: url) = Raise e ->
         (forall m, e <> AozoraProcessingError m) ->
         Web.convert w req = Ok (Web.Json (Web.Error Web.UNEXPECTED) 500)
         /\ Web.index w req
            = Ok (Web.Page (c :: url) None (Some Web.UNEXPECTED) 200)
         /\ Web.download w req = Raise e).
Proof.
  intros M J L S A.
  assert (V : Web.or_else (Web.form_get req (Web.lit "url")) (Web.JString [])
              = Web.JString u).
  { unfold Web.form_get. rewrite L. unfold Web.or_else.
    destruct u as [|d u]; [discriminate S|reflexivity]. }
  assert (Ec : forall r,
             Pipeline.fetch_clean_text w (c :: url) = r ->
             Web.convert w req
             = match r with
               | Ok text => Ok (Web.Json (Web.Text text) 200)
               | Raise (AozoraProcessingError message) =>
                   Ok (Web.Json (Web.Error message) 400)
               | Raise _ => Ok (Web.Json (Web.Error Web.UNEXPECTED) 500)
               end).
  { intros r <-. unfold Web.convert. rewrite J. cbv zeta.
    cbn [Web.or_else Web.truthy Web.dict_get Web.lookup bind].
    change (Web.or_else Web.JNull ?x) with x. rewrite V.
    cbn [Web.strip_value bind]. rewrite S. reflexivity. }
  assert (Ei : forall r,
             Pipeline.fetch_clean_text w (c :: url) = r ->
             Web.index w req
             = match r with
               | Ok text => Ok (Web.Page (c :: url) (Some text) None 200)
               | Raise (AozoraProcessingError message) =>
                   Ok (Web.Page (c :: url) None (Some message) 200)
               | Raise _ =>
                   Ok (Web.Page (c :: url) None (Some Web.UNEXPECTED) 200)
               end).
  { intros r <-. unfold Web.index. rewrite M. cbv zeta. rewrite V.
    cbn [Web.strip_value bind]. rewrite S, fetch_twice.
    destruct (Web.lookup (Web.lit "action") (Web.form req)) as [a|] eqn:E.
    - now rewrite (A a eq_refl).
    - reflexivity. }
  assert (Ed : forall r,
             Pipeline.fetch_clean_text w (c :: url) = r ->
             Web.download w req
             = match r with
               | Ok text =>
                   data <- Utf8.encode text ;;
                   Ok (Web.File data "text/plain; charset=utf-8"
                         "aozora_cleaned.txt")
               | Raise (AozoraProcessingError message) =>
                   Ok (Web.Page (c :: url) None (Some message) 400)
               | Raise e => Raise e
               end).
  { intros r <-. unfold Web.download. rewrite V.
    cbn [Web.strip_value bind]. rewrite S, fetch_twice. reflexivity. }
  split; [|split].
  - intros text F. now rewrite (Ec _ F), (Ei _ F), (Ed _ F).
  - intros m F. now rewrite (Ec _ F), (Ei _ F), (Ed _ F).
  - intros e F N. rewrite (Ec _ F), (Ei _ F), (Ed _ F).
    destruct e as [|m|what]; [now repeat split|now contradiction (N m)|
                               now repeat split].
Qed.

Lemma X18_one_request_three_handlers_witness :
  Web.convert Net.serving_garbage (Req.form_with Net.url)
  = Ok (Web.Json (Web.Error Web.UNEXPECTED) 500)
  /\ Web.index Net.serving_garbage (Req.form_with Net.url)
     = Ok (Web.Page Net.url None (Some Web.UNEXPECTED) 200)
  /\ Web.download Net.serving_garbage (Req.form_with Net.url)
     = Raise (OtherError "UnicodeDecodeError").
Proof.
  destruct (X18_one_request_three_handlers Net.serving_garbage
              (Req.form_with Net.url) Net.url 104%N
              (tl Net.url)) as (_ & _ & H).
  - reflexivity.
  - reflexivity.
  - reflexivity.
  - reflexivity.
  - intros a E. vm_compute in E. discriminate.
  - apply (H (OtherError "UnicodeDecodeError")); [reflexivity|discriminate].
Defined.

Lemma X17_download_answers_witness :
  Web.File [Byte.x42; Byte.x4f; Byte.x44; Byte.x59;
            Byte.x74; Byte.x65; Byte.x78; Byte.x74]
    "text/plain; charset=utf-8" "aozora_cleaned.txt"
  = Web.Page [] None (Some Web.EMPTY_DOWNLOAD) 400
  \/ exists url,
       url <> [] /\ trimmed url
       /\ ((exists m,
               Pipeline.fetch_aozora_text (Net.serving Scenario.s1) url
               = Raise (AozoraProcessingError m)
               /\ Web.File [Byte.x42; Byte.x4f; Byte.x44; Byte.x59;
                            Byte.x74; Byte.x65; Byte.x78; Byte.x74]
                    "text/plain; charset=utf-8" "aozora_cleaned.txt"
                  = Web.Page url None (Some m) 400)
           \/ (exists text data,
                  Pipeline.fetch_aozora_text (Net.serving Scenario.s1) url
                  = Ok text
                  /\ Utf8.encode text = Ok data
                  /\ Web.File [Byte.x42; Byte.x4f; Byte.x44; Byte.x59;
                               Byte.x74; Byte.x65; Byte.x78; Byte.x74]
                       "text/plain; charset=utf-8" "aozora_cleaned.txt"
                     = Web.File data "text/plain; charset=utf-8"
                         "aozora_cleaned.txt")).
Proof.
  apply (proj1 (X17_download_answers (Net.serving Scenario.s1)
                  (Req.form_with Net.url))).
  reflexivity.
Defined.

Lemma encode_char_scalar (c : char) :
  match Utf8.encode_char c with
  | Some bs => scalar c = true /\ 1 <= length bs <= 4
  | None => scalar c = false
  end.
Proof.
  unfold Utf8.encode_char, scalar.
  destruct (c <? 128)%N eqn:E1.
  { apply N.ltb_lt in E1. split; [|simpl; lia].
    apply orb_true_iff. left. apply N.ltb_lt. lia. }
  destruct (c <? 2048)%N eqn:E2.
  { apply N.ltb_lt in E2. split; [|simpl; lia].
    apply orb_true_iff. left. apply N.ltb_lt. lia. }
  destruct (c <? 65536)%N eqn:E3.
  { destruct (55296 <=? c)%N eqn:E4; destruct (c <=? 57343)%N eqn:E5;
      cbn [andb].
    - apply N.leb_le in E4, E5. apply orb_false_iff. split.
      + apply N.ltb_ge. lia.
      + apply andb_false_iff. left. apply N.ltb_ge. lia.
    - apply N.leb_gt in E5. apply N.ltb_lt in E3. split; [|simpl; lia].
      apply orb_true_iff. right. apply andb_true_iff.
      split; apply N.ltb_lt; lia.
    - apply N.leb_gt in E4. split; [|simpl; lia].
      apply orb_true_iff. left. apply N.ltb_lt. lia.
    - apply N.leb_gt in E4. split; [|simpl; lia].
      apply orb_true_iff. left. apply N.ltb_lt. lia. }
  apply N.ltb_ge in E3.
  destruct (c <? 1114112)%N eqn:E6.
  - split; [|simpl; lia]. apply orb_true_iff. right.
    apply andb_true_iff. split; [apply N.ltb_lt; lia|reflexivity].
  - apply orb_false_iff. split; [apply N.ltb_ge; lia|].
    apply andb_false_r.
Qed.

(** X19: the UTF-8 encoding that [download] applies succeeds on every
    text without surrogates, with one to four bytes for each character;
    it raises, a [UnicodeEncodeError], only on a text that has one. *)
Theorem X19_utf8_encoding (s : str) :
  (forallb scalar s = true ->
   exists data,
     Utf8.encode s = Ok data
     /\ length s <= length data <= 4 * length s)
  /\ (forall e,
         Utf8.encode s = Raise e ->
         e = OtherError "UnicodeEncodeError" /\ forallb scalar s = false).
Proof.
  induction s as [|c s [IH1 IH2]].
  - split; [|discriminate]. intros _. exists []. split; [reflexivity|].
    simpl. lia.
  - cbn [Utf8.encode forallb].
    pose proof (encode_char_scalar c) as C.
    destruct (Utf8.encode_char c) as [bs|].
    + destruct C as [Sc Lc]. rewrite Sc. cbn [andb].
      destruct (Utf8.encode s) as [rest|e0]; cbn [bind].
      * split; [|discriminate]. intros H.
        destruct (IH1 H) as (data & E & L). injection E as <-.
        exists (bs ++ rest)%list. split; [reflexivity|].
        rewrite length_app. cbn [length]. lia.
      * split.
        -- intros H. destruct (IH1 H) as (data & E & _). discriminate.
        -- intros e H. injection H as <-. exact (IH2 e0 eq_refl).
    + rewrite C. cbn [andb]. split; [discriminate|].
      intros e H. injection H as <-. split; reflexivity.
Qed.

Lemma X19_utf8_encoding_witness :
  exists data,
    Utf8.encode [97; 233; 24213; 128512]%N = Ok data
    /\ length [97; 233; 24213; 128512]%N <= length data
       <= 4 * length [97; 233; 24213; 128512]%N.
Proof.
  apply (proj1 (X19_utf8_encoding [97; 233; 24213; 128512]%N)).
  reflexivity.
Defined.

End FrontEnds.
